(** * PlayNetwork: addressing, routing and dispatch of the session server

    A shallow embedding of the server entry point (the [PlayNetwork] class:
    [generateId], [_onMessage], [_validateSettings], [start] and the
    per-connection handlers installed by [start]) and of the [Players]
    registry, with the properties of the design document stated over it.

    Conventions of the embedding.
    - Identifiers are integers ([Z]), which is what JavaScript numbers are
      up to 2^53; the rounding of larger numbers is not modelled.
    - The coordination store (Redis) is a record of counters and hashes.
      A hash field is the decimal rendering of an identifier, so a field is
      keyed by the identifier itself; a hash value is what [HSET] was given
      ([this.id], a number or [null]).
    - Every call to a collaborator (store, inter-process link, socket,
      registries, handlers) is recorded, in order, in the world's log.
    - The body of an [async] function is a computation of the monad [M];
      an [await] is a plain sequencing point (one message is followed at a
      time).  An exception that leaves such a body rejects the promise of
      the call: see [deliver] for the message listener and [call_start]
      for [start].

    The file level provider, the client ([PlayCanvasNetwork]) and the
    network entities of a room are embedded in modules of their own. *)

From Stdlib Require Import ZArith Ascii String List Bool Lia.
From stdpp Require Import gmap strings pretty list fin_maps.

Local Open Scope Z_scope.

#[local] Set Warnings "-register-all".

(** ** JavaScript values *)

(** Values that travel in messages ([JSON.parse] results) and settings. *)
Inductive value : Type :=
| VUndefined
| VNull
| VBool (b : bool)
| VNum (n : Z)
| VStr (s : string)
| VArr (items : list value)
| VObj (fields : list (string * value)).

(** JS truthiness, as used by [if (x)], [!x] and [x || y]. *)
Definition truthy (v : value) : bool :=
  match v with
  | VUndefined | VNull => false
  | VBool b => b
  | VNum n => negb (n =? 0)
  | VStr s => negb (bool_decide (s = ""))
  | VArr _ | VObj _ => true
  end.

(** A JS [Error] object. *)
Record Error := mkError { message : string }.

(** The result of [parseInt]: an integer or [NaN]. *)
Inductive jsnum := NaN | Num (n : Z).

(** [!n] on a number: [NaN] and [0] are falsy. *)
Definition falsy_num (n : jsnum) : bool :=
  match n with
  | NaN => true
  | Num k => k =? 0
  end.

(** ** Messages *)

Record Scope := mkScope { scope_type : string; scope_id : Z }.

(** A parsed request: [{ name, scope?, data, id? }]; [msg_id] is
    [VUndefined] when the request has no [id]. *)
Record Msg := mkMsg {
  msg_name : string;
  msg_scope : option Scope;
  msg_data : value;
  msg_id : value
}.

(** A response: [{ name, data, id }]. *)
Record Envelope := mkEnvelope {
  env_name : string;
  env_data : value;
  env_id : value
}.

(** ** Event handlers (pc.EventHandler)

    A registered callback receives [(sender, data, callback)].  What it does
    with them is a script: it calls [callback(err, data)] any number of
    times and may throw.  The sender is handed over as its identifier. *)
Inductive action (D : Type) : Type :=
| Reply (err : option Error) (d : D)
| Throw (e : Error).
Arguments Reply {D} err d.
Arguments Throw {D} e.

Definition handler : Type := option Z → value → list (action value).

(** A callback registered for the [authenticate] event answers with a user
    identifier. *)
Definition auth_handler : Type := option Z → value → list (action Z).

Definition as_handler (h : auth_handler) : handler :=
  λ sender d,
    map (λ a, match a with
              | Reply err uid => Reply err (VNum uid)
              | Throw e => Throw e
              end) (h sender d).

(** ** Process state *)

Record User := mkUser {
  user_id : Z;
  user_callbacks : gmap string (list handler)
}.

(** Modelled from the spec: the [User] class (core/user.js is not part of
    the sources).  "Attributes: identifier, owning connection"; the
    connection is the one of the session and is not stored.
    [new User(id, socket)]: no listener is attached yet. *)
Definition new_User (id : Z) : User := mkUser id ∅.

Record PlayNetwork := mkPlayNetwork {
  pn_id : option Z;                                   (* this.id, null before start *)
  users : gmap Z User;                                (* this.users *)
  rooms : gmap Z (gmap string (list handler));        (* this.rooms *)
  networkEntities : gmap Z (gmap string (list handler));
  _reservedEvents : list string;
  _callbacks : gmap string (list handler);            (* listeners of the process *)
  authenticate_listeners : list auth_handler          (* listeners of 'authenticate' *)
}.

(** The coordination store. *)
Record Redis := mkRedis {
  counters : gmap string Z;
  hashes : gmap string (gmap Z (option Z))
}.

Inductive target_ref :=
| TProcess
| TUser (id : Z)
| TRoom (id : Z)
| TNetworkEntity (id : Z).

(** Calls to collaborators, in the order they are made. *)
Inductive event : Type :=
| EvRegistryGet (kind : string) (id : Z)
| EvRegistryAdd (kind : string) (id : Z)
| EvINCR (key : string)
| EvHSET (key : string) (field : Z) (v : option Z)
| EvHGET (key : string) (field : Z)
| EvServerSend (name : string) (m : Msg) (to : jsnum) (from : option Z)
| EvSocketSend (env : Envelope)
| EvSocketClose
| EvHandler (t : target_ref) (name : string) (sender : option Z) (d : value)
| EvPerformance (what : string)
| EvRedisConnect (url : value)
| EvServerCreated (id : Z)
| EvInitialize (what : string)
| EvUpgradeListener
| EvConsoleInfo
| EvConsoleError (e : Error)
| EvErrorEvent (e : Error).

Record World := mkWorld {
  pn : PlayNetwork;
  redis : Redis;
  user : option User;        (* the connection's [user] variable *)
  log : list event
}.

(** ** The monad of effects: state, log and exceptions *)

Inductive res (A : Type) : Type :=
| Val (a : A)
| Exn (e : Error).
Arguments Val {A} a.
Arguments Exn {A} e.

Definition M (A : Type) : Type := World → res A * World.

#[global] Instance M_ret : MRet M := λ A a w, (Val a, w).

#[global] Instance M_bind : MBind M := λ A B f m w,
  match m w with
  | (Val a, w') => f a w'
  | (Exn e, w') => (Exn e, w')
  end.

Definition raise {A} (e : Error) : M A := λ w, (Exn e, w).

Definition emit (e : event) : M unit :=
  λ w, (Val tt, mkWorld (pn w) (redis w) (user w) (log w ++ [e])).

Definition get_pn : M PlayNetwork := λ w, (Val (pn w), w).

Definition set_pn (p : PlayNetwork) : M unit :=
  λ w, (Val tt, mkWorld p (redis w) (user w) (log w)).

Definition get_redis : M Redis := λ w, (Val (redis w), w).

Definition set_redis (r : Redis) : M unit :=
  λ w, (Val tt, mkWorld (pn w) r (user w) (log w)).

Definition get_user : M (option User) := λ w, (Val (user w), w).

Definition set_user (u : option User) : M unit :=
  λ w, (Val tt, mkWorld (pn w) (redis w) u (log w)).

(** ** Coordination store primitives *)

(** [INCR key]: atomic increment; a missing key counts from 0.  The reply
    is taken as the integer it is, which is what the client hands over for
    integers that a JavaScript number represents exactly (up to 2^53). *)
Definition INCR (key : string) : M Z :=
  emit (EvINCR key);;
  r ← get_redis;
  let n := default 0 (counters r !! key) + 1 in
  set_redis (mkRedis (<[key := n]> (counters r)) (hashes r));;
  mret n.

(** [HSET key field value]. *)
Definition HSET (key : string) (field : Z) (v : option Z) : M unit :=
  emit (EvHSET key field v);;
  r ← get_redis;
  set_redis (mkRedis (counters r)
               (<[key := <[field := v]> (default ∅ (hashes r !! key))]> (hashes r))).

(** [HGET key field]: the stored value, or [None] for [null]. *)
Definition HGET (key : string) (field : Z) : M (option (option Z)) :=
  emit (EvHGET key field);;
  r ← get_redis;
  mret (hashes r !! key ≫= λ h : gmap Z (option Z), h !! field).

(** [parseInt] of an [HGET] reply: the number that was stored comes back;
    [null] (no field) and a stored [null] give [NaN]. *)
Definition parseInt (reply : option (option Z)) : jsnum :=
  match reply with
  | Some (Some n) => Num n
  | _ => NaN
  end.

(** ** Identifier allocation *)

Definition generateId (type : string) : M Z :=
  id ← INCR ("_id:" +:+ type);
  (if bool_decide (type ≠ "server")
   then p ← get_pn; HSET ("_route:" +:+ type) id (pn_id p)
   else mret tt);;
  mret id.

(** ** Firing events

    [pc.EventHandler] comes from the playcanvas library: [fire(name, ...)]
    calls the callbacks registered under [name], in order, with the given
    arguments, and has no try/catch; [hasEvent(name)] tells whether at least
    one callback is registered under [name]. *)

(** Runs what a listener does with the callback it was given; an exception
    leaves the listener and is not caught by [fire]. *)
Fixpoint run_actions {D} (cb : option Error → D → M unit)
    (acts : list (action D)) : M unit :=
  match acts with
  | [] => mret tt
  | Reply err d :: rest => cb err d;; run_actions cb rest
  | Throw e :: _ => raise e
  end.

(** [fire(name, sender, data, callback)] on the listeners [hs] of [name]. *)
Fixpoint call_all {D} (t : target_ref) (name : string)
    (hs : list (option Z → value → list (action D)))
    (sender : option Z) (d : value) (cb : option Error → D → M unit) : M unit :=
  match hs with
  | [] => mret tt
  | h :: rest =>
      emit (EvHandler t name sender d);;
      run_actions cb (h sender d);;
      call_all t name rest sender d cb
  end.

Definition listeners (cbs : gmap string (list handler)) (name : string)
    : list handler :=
  default [] (cbs !! name).

Definition fire (t : target_ref) (cbs : gmap string (list handler))
    (name : string) (sender : option Z) (d : value)
    (cb : option Error → value → M unit) : M unit :=
  call_all t name (listeners cbs name) sender d cb.

(** Listeners registered on the process itself.  Those of 'authenticate'
    are kept with their own type (they answer with an identifier); called
    through [fire] they are listeners like the others. *)
Definition pn_listeners (p : PlayNetwork) (name : string) : list handler :=
  if bool_decide (name = "authenticate")
  then as_handler <$> authenticate_listeners p
  else listeners (_callbacks p) name.

Definition hasEvent (p : PlayNetwork) (name : string) : bool :=
  match pn_listeners p name with
  | [] => false
  | _ :: _ => true
  end.

Definition pn_fire (name : string) (sender : option Z) (d : value)
    (cb : option Error → value → M unit) : M unit :=
  p ← get_pn;
  call_all TProcess name (pn_listeners p name) sender d cb.

(** ** Local registries and the inter-process link *)

(** Modelled from the spec: [Users.get] (core/users.js is not part of the
    sources).  "[user]: target is the User located in Local Registries by
    id", and "lookups are always attempted locally first (Local Registries)
    and only fall through to the shared store when the entity is not
    resident in this process", which is why the source awaits the call.
    The call is given the identifier alone, not the message; a routing
    entry names a process, not a User, so for a user that is not resident
    here there is no target. *)
Definition users_get (id : Z) : M (option User) :=
  emit (EvRegistryGet "user" id);;
  p ← get_pn;
  match users p !! id with
  | Some u => mret (Some u)
  | None => _ ← HGET "_route:user" id; mret None
  end.

(** Modelled from the spec: [Users.add] (core/users.js is not part of the
    sources).  The registry maps the identifier to the live handle. *)
Definition users_add (u : User) : M unit :=
  emit (EvRegistryAdd "user" (user_id u));;
  p ← get_pn;
  set_pn (mkPlayNetwork (pn_id p) (<[user_id u := u]> (users p)) (rooms p)
            (networkEntities p) (_reservedEvents p) (_callbacks p)
            (authenticate_listeners p)).

(** Modelled from the spec: [Rooms.get] (core/rooms.js is not part of the
    sources).  A local registry is an in-memory mapping "from ID to live
    entity handle"; [this.rooms.get(id)] is the lookup in it. *)
Definition rooms_get (id : Z) : M (option (gmap string (list handler))) :=
  emit (EvRegistryGet "room" id);;
  p ← get_pn;
  mret (rooms p !! id).

(** [this.networkEntities.get(id)] on the [Map]. *)
Definition networkEntities_get (id : Z)
    : M (option (gmap string (list handler))) :=
  emit (EvRegistryGet "networkEntity" id);;
  p ← get_pn;
  mret (networkEntities p !! id).

(** [this.server.send(name, msg, serverId, this.id)]. *)
Definition server_send (name : string) (m : Msg) (serverId : jsnum) : M unit :=
  p ← get_pn;
  emit (EvServerSend name m serverId (pn_id p)).

(** ** The reply callback of a request *)

Definition callback (msg : Msg) : option Error → value → M unit :=
  λ err d,
    if bool_decide (is_Some err) || truthy (msg_id msg)
    then emit (EvSocketSend
                 (mkEnvelope (msg_name msg)
                    (match err with
                     | Some e => VObj [("err", VStr (message e))]
                     | None => d
                     end)
                    (msg_id msg)))
    else mret tt.

(** ** Dispatch *)

Definition _onMessage (msg : Msg) (user : option User)
    (callback : option Error → value → M unit) : M unit :=
  p ← get_pn;
  if bool_decide (msg_name msg ∈ _reservedEvents p)
  then callback
         (Some (mkError ("Event " +:+ msg_name msg +:+ " is reserved")))
         VUndefined
  else if hasEvent p (msg_name msg)
  then pn_fire (msg_name msg) (user_id <$> user) (msg_data msg) callback
  else
    match msg_scope msg with
    | None => mret tt
    | Some sc =>
        if bool_decide (scope_type sc = "server") then
          pn_fire (msg_name msg) (user_id <$> user) (msg_data msg) callback
        else if bool_decide (scope_type sc = "user") then
          target ← users_get (scope_id sc);
          match target with
          | Some u =>
              fire (TUser (scope_id sc)) (user_callbacks u) (msg_name msg)
                (user_id <$> user) (msg_data msg) callback
          | None => mret tt
          end
        else if bool_decide (scope_type sc = "room") then
          target ← rooms_get (scope_id sc);
          match target with
          | Some r =>
              fire (TRoom (scope_id sc)) r (msg_name msg)
                (user_id <$> user) (msg_data msg) callback
          | None =>
              reply ← HGET "_route:room" (scope_id sc);
              let serverId := parseInt reply in
              if falsy_num serverId then mret tt
              else server_send "_message" msg serverId
          end
        else if bool_decide (scope_type sc = "networkEntity") then
          target ← networkEntities_get (scope_id sc);
          match target with
          | Some r =>
              fire (TNetworkEntity (scope_id sc)) r (msg_name msg)
                (user_id <$> user) (msg_data msg) callback
          | None =>
              reply ← HGET "_route:networkEntity" (scope_id sc);
              let serverId := parseInt reply in
              if falsy_num serverId then mret tt
              else server_send "_message" msg serverId
          end
        else mret tt
    end.

(** ** The connection: authentication and incoming messages *)

Definition connectUser (callback : option Error → value → M unit) (id : Z)
    : M unit :=
  let u := new_User id in
  set_user (Some u);;
  users_add u;;
  callback None (VNum (user_id u));;
  emit (EvPerformance "connectSocket").

(** The listener of the socket's [_authenticate] event. *)
Definition on_authenticate (payload : value)
    (callback : option Error → value → M unit) : M unit :=
  p ← get_pn;
  if negb (hasEvent p "authenticate") then
    id ← generateId "user";
    connectUser callback id
  else
    u ← get_user;
    call_all TProcess "authenticate" (authenticate_listeners p) (user_id <$> u) payload
      (λ err userId,
         match err with
         | Some e => callback (Some e) VUndefined;; emit EvSocketClose
         | None => connectUser callback userId
         end).

(** The listener of the socket's [message] event, on the parsed message. *)
Definition on_message (msg : Msg) : M unit :=
  if bool_decide (msg_name msg = "_authenticate")
  then on_authenticate (msg_data msg) (callback msg)
  else u ← get_user; _onMessage msg u (callback msg).

(** The process-level listeners installed by the constructor:
    [console.error(err); this.fire('error', err)]. *)
Definition unhandledRejection (err : Error) : M unit :=
  emit (EvConsoleError err);;
  emit (EvErrorEvent err).

(** An incoming message as the process lives it: the [message] listener is
    [async] and nobody awaits it, so an exception that leaves it is an
    unhandled rejection. *)
Definition deliver (msg : Msg) : M unit :=
  λ w,
    match on_message msg w with
    | (Exn e, w') => unhandledRejection e w'
    | r => r
    end.

(** [new PlayNetwork()]. *)
Definition new_PlayNetwork : PlayNetwork :=
  mkPlayNetwork None ∅ ∅ ∅ ["destroy"] ∅ [].

(** ** Start-up *)

(** [settings.server]: an instance of [http.Server], of [https.Server], or
    any other value. *)
Inductive server_setting :=
| HttpServer
| HttpsServer
| OtherValue (v : value).

Definition server_truthy (s : server_setting) : bool :=
  match s with
  | HttpServer | HttpsServer => true
  | OtherValue v => truthy v
  end.

Definition instanceof_http (s : server_setting) : bool :=
  match s with HttpServer => true | _ => false end.

Definition instanceof_https (s : server_setting) : bool :=
  match s with HttpsServer => true | _ => false end.

Record Settings := mkSettings {
  redisUrl : value;
  scriptsPath : value;
  templatesPath : value;
  levelProvider : value;
  server : server_setting;
  useAmmo : value
}.

(** The line feed that ends each line of the error message. *)
Definition LF : string := String "010"%char "".

(** The line of the error message for one setting:
    'settings.<name> is required\n'. *)
Definition required (setting : string) : string :=
  "settings." +:+ setting +:+ " is required" +:+ LF.

Definition _validateSettings (settings : option Settings) : M unit :=
  let error := "" in
  match settings with
  | None => raise (mkError "settings is required")
  | Some s =>
      let error :=
        if negb (truthy (redisUrl s))
        then error +:+ required "redisUrl" else error in
      let error :=
        if negb (truthy (scriptsPath s))
        then error +:+ required "scriptsPath" else error in
      let error :=
        if negb (truthy (templatesPath s))
        then error +:+ required "templatesPath" else error in
      let error :=
        if negb (truthy (levelProvider s))
        then error +:+ required "levelProvider" else error in
      let error :=
        if negb (server_truthy (server s))
           || (negb (instanceof_http (server s))
               && negb (instanceof_https (server s)))
        then error +:+ required "server" else error in
      if truthy (VStr error) then raise (mkError error) else mret tt
  end.

(** Reading a property of [settings]; on [undefined] this is a TypeError. *)
Definition property {A} (settings : option Settings) (f : Settings → A) : M A :=
  match settings with
  | Some s => mret (f s)
  | None => raise (mkError "Cannot read properties of undefined")
  end.

Definition set_id (id : Z) : M unit :=
  p ← get_pn;
  set_pn (mkPlayNetwork (Some id) (users p) (rooms p) (networkEntities p)
            (_reservedEvents p) (_callbacks p) (authenticate_listeners p)).

(** The body of [async start(settings)], statement by statement. *)
Definition start (settings : option Settings) : M unit :=
  _validateSettings settings;;
  url ← property settings redisUrl;
  emit (EvRedisConnect url);;        (* this.redis.connect() *)
  emit (EvRedisConnect url);;        (* this.redisSubscriber.connect() *)
  emit EvConsoleInfo;;
  id ← generateId "server";
  set_id id;;
  emit (EvServerCreated id);;
  ammo ← property settings useAmmo;
  (if truthy ammo then emit (EvInitialize "ammo") else mret tt);;
  emit (EvInitialize "levels");;
  emit (EvInitialize "scripts");;
  emit (EvInitialize "templates");;
  emit (EvInitialize "rooms");;
  emit EvUpgradeListener;;           (* settings.server.on('upgrade', ...) *)
  emit (EvPerformance "addCpuLoad");;
  emit (EvPerformance "addMemoryUsage");;
  emit (EvPerformance "addBandwidth");;
  emit EvConsoleInfo.

(** ** Async functions

    [start] is declared [async]: its call never throws to the caller.  The
    call returns a promise; an exception that leaves the body settles that
    promise as rejected with it, a normal end of the body as fulfilled. *)
Inductive promise (A : Type) : Type :=
| Fulfilled (a : A)
| Rejected (e : Error).
Arguments Fulfilled {A} a.
Arguments Rejected {A} e.

Definition async {A} (body : M A) : M (promise A) :=
  λ w,
    match body w with
    | (Val a, w') => (Val (Fulfilled a), w')
    | (Exn e, w') => (Val (Rejected e), w')
    end.

(** [pn.start(settings)] as its caller sees it. *)
Definition call_start (settings : option Settings) : M (promise unit) :=
  async (start settings).

(** * Notions used in the statements *)

(** ** Worlds and logs *)

(** The routing entry of [(kind, id)] in the store. *)
Definition route (r : Redis) (kind : string) (id : Z) : option (option Z) :=
  hashes r !! ("_route:" +:+ kind) ≫= λ h : gmap Z (option Z), h !! id.

(** The envelope the callback builds for [(err, data)]. *)
Definition reply_envelope (msg : Msg) (err : option Error) (d : value)
    : Envelope :=
  mkEnvelope (msg_name msg)
    (match err with
     | Some e => VObj [("err", VStr (message e))]
     | None => d
     end)
    (msg_id msg).

(** [w] with [evs] appended to its log and nothing else changed. *)
Definition with_log (w : World) (evs : list event) : World :=
  mkWorld (pn w) (redis w) (user w) (log w ++ evs).

(** What a reply adds to the log. *)
Definition reply_events (msg : Msg) (err : option Error) (d : value)
    : list event :=
  if bool_decide (is_Some err) || truthy (msg_id msg)
  then [EvSocketSend (reply_envelope msg err d)] else [].

(** What a listener's script adds to the log through the callback of the
    request: the replies of its calls, in order. *)
Definition script_events (msg : Msg) (acts : list (action value))
    : list event :=
  acts ≫= λ a, match a with
               | Reply err d => reply_events msg err d
               | Throw _ => []
               end.

(** A script without [throw]. *)
Definition returns_normally {D} (acts : list (action D)) : Prop :=
  Forall (λ a, match a with Reply _ _ => True | Throw _ => False end) acts.

(** Events of a local delivery: a listener was called, or the callback
    wrote to the socket. *)
Definition local_event (e : event) : Prop :=
  match e with
  | EvHandler _ _ _ _ | EvSocketSend _ => True
  | _ => False
  end.

(** ** Dispatch *)

(** The error of a reserved name. *)
Definition ReservedName (name : string) : Error :=
  mkError ("Event " +:+ name +:+ " is reserved").

(** The registry that serves a routed kind, and the target it yields. *)
Definition registry (p : PlayNetwork) (kind : string)
    : gmap Z (gmap string (list handler)) :=
  if bool_decide (kind = "room") then rooms p else networkEntities p.

Definition target_of (kind : string) (id : Z) : target_ref :=
  if bool_decide (kind = "room") then TRoom id else TNetworkEntity id.

(** ** Scenarios *)

(** Process 1, started, with nothing registered. *)
Definition process1 : PlayNetwork :=
  mkPlayNetwork (Some 1) ∅ ∅ ∅ ["destroy"] ∅ [].

(** A store in which user 7 and room 5 were allocated by process 2. *)
Definition store_of_process2 : Redis :=
  mkRedis {[ "_id:server" := 2; "_id:user" := 7; "_id:room" := 5 ]}
          {[ "_route:user" := {[ 7 := Some 2 ]};
             "_route:room" := {[ 5 := Some 2 ]} ]}.

Definition world1 : World := mkWorld process1 store_of_process2 None [].


Definition fire_room5 : Msg :=
  mkMsg "fire" (Some (mkScope "room" 5)) VNull VUndefined.

(** A process with one global listener, [ping], that answers "pong", and one,
    [boom], that throws. *)
Definition pong : handler := λ _ _, [Reply None (VStr "pong")].

Definition bad : Error := mkError "bad".

Definition boom : handler := λ _ _, [Throw bad].

Definition process_ping : PlayNetwork :=
  mkPlayNetwork (Some 1) ∅ ∅ ∅ ["destroy"]
    {[ "ping" := [pong]; "boom" := [boom] ]} [].

Definition world_ping : World :=
  mkWorld process_ping store_of_process2 None [].

Definition ping (id : value) : Msg := mkMsg "ping" None VNull id.

(** The same process when it also holds room 5, which has a 'ping' listener
    of its own, and a 'ping' addressed to that room. *)
Definition room_pong : handler := λ _ _, [Reply None (VStr "room")].

Definition world_ping_room5 : World :=
  mkWorld
    (mkPlayNetwork (Some 1) ∅ {[ 5 := {[ "ping" := [room_pong] ]} ]} ∅
       ["destroy"] {[ "ping" := [pong]; "boom" := [boom] ]} [])
    store_of_process2 None [].

Definition ping_room5 : Msg :=
  mkMsg "ping" (Some (mkScope "room" 5)) VNull (VNum 7).

Definition destroy_msg : Msg :=
  mkMsg "destroy" (Some (mkScope "room" 5)) VNull (VNum 9).

(** An authenticated session: user 1 is bound and registered. *)
Definition world_authenticated : World :=
  mkWorld
    (mkPlayNetwork (Some 1) {[ 1 := new_User 1 ]} ∅ ∅ ["destroy"] ∅ [])
    (mkRedis {[ "_id:server" := 1; "_id:user" := 1 ]}
             {[ "_route:user" := {[ 1 := Some 1 ]} ]})
    (Some (new_User 1)) [].

Definition authenticate_msg : Msg :=
  mkMsg "_authenticate" None (VStr "token") (VNum 4).

Definition boom_msg : Msg := mkMsg "boom" None VNull (VNum 7).

(** ** Start-up settings *)

(** [contains line text]: [line] occurs in [text]. *)
Definition contains (line text : string) : Prop :=
  ∃ pre post, text = pre +:+ line +:+ post.

(** A decision procedure for [contains]. *)
Fixpoint occurs (line text : string) : bool :=
  String.prefix line text
  || match text with
     | "" => false
     | String _ rest => occurs line rest
     end.

(** A setting the validation counts as missing: absent ([undefined]) or
    any other falsy value. *)
Definition missing (v : value) : Prop := truthy v = false.

(** [settings.server] is missing when it is absent or not a server. *)
Definition server_missing (s : server_setting) : Prop :=
  instanceof_http s = false ∧ instanceof_https s = false.

Definition invalid (settings : option Settings) : Prop :=
  match settings with
  | None => True
  | Some s =>
      missing (redisUrl s) ∨ missing (scriptsPath s)
      ∨ missing (templatesPath s) ∨ missing (levelProvider s)
      ∨ server_missing (server s)
  end.

(** Settings without a store address and without a server. *)
Definition settings_without_store : Settings :=
  mkSettings VUndefined (VStr "scripts") (VStr "templates") (VObj [])
    (OtherValue VUndefined) VUndefined.

Definition world0 : World := mkWorld new_PlayNetwork (mkRedis ∅ ∅) None [].

(** Complete settings: the world after [start]. *)
Definition settings_complete : Settings :=
  mkSettings (VStr "redis://store") (VStr "scripts") (VStr "templates")
    (VObj []) HttpServer VUndefined.

(** Process 2 as it allocates a room, and process 1 as it then receives a
    message for that room. *)
Definition world_of_process2 : World :=
  mkWorld (mkPlayNetwork (Some 2) ∅ ∅ ∅ ["destroy"] ∅ [])
    (mkRedis {[ "_id:server" := 2; "_id:room" := 4 ]} ∅) None [].

Definition world_of_process1_after (w2 : World) : World :=
  mkWorld process1 (redis w2) None [].

(** * The Players registry *)

Module Players.

(** A player, as the registry sees it: its id, the id of its user and the id
    of its room.  Player ids identify player objects. *)
Record Player := mkPlayer {
  player_id : Z;        (* player.id *)
  player_user : Z;      (* player.user.id *)
  player_room : Z       (* player.room.id *)
}.

#[global] Instance Player_eq_dec : EqDecision Player.
Proof. solve_decision. Defined.

(** The registry: the [Map] it extends, its two other indexes, and the
    'destroy' listeners it has attached to players, one per call of [add]. *)
Record Players := mkPlayers {
  index : gmap Z Player;
  playersByUser : gmap Z Player;
  playersByRoom : gmap Z Player;
  on_destroy : list Player
}.

Definition empty : Players := mkPlayers ∅ ∅ ∅ [].

Definition add (player : Player) (this : Players) : Player * Players :=
  (player,
   mkPlayers (<[player_id player := player]> (index this))
             (<[player_user player := player]> (playersByUser this))
             (<[player_room player := player]> (playersByRoom this))
             (on_destroy this ++ [player])).

Definition get (id : Z) (this : Players) : option Player := index this !! id.

Definition getByUserId (userId : Z) (this : Players) : option Player :=
  playersByUser this !! userId.

Definition getByRoomId (roomId : Z) (this : Players) : option Player :=
  playersByRoom this !! roomId.

(** The listener that [add] attaches to the player's 'destroy' event. *)
Definition destroy_listener (player : Player) (this : Players) : Players :=
  mkPlayers (delete (player_id player) (index this))
            (delete (player_user player) (playersByUser this))
            (delete (player_room player) (playersByRoom this))
            (on_destroy this).

(** [player.fire('destroy')]: every listener attached to this player runs. *)
Definition fire_destroy (player : Player) (this : Players) : Players :=
  foldl (λ s q, if decide (q = player) then destroy_listener player s else s)
        this (on_destroy this).

(** The life of a registry: players are added, players are destroyed, and a
    destroyed player is not added again.  The second component lists the
    players destroyed so far. *)
Inductive reachable : Players → list Player → Prop :=
| reach_empty : reachable empty []
| reach_add this gone p :
    reachable this gone → p ∉ gone → reachable (add p this).2 gone
| reach_destroy this gone p :
    reachable this gone → reachable (fire_destroy p this) (p :: gone).

(** Every entry is filed under the key of its player, for a player that has
    its listener attached and is not destroyed. *)
Definition consistent (this : Players) (gone : list Player) : Prop :=
  (∀ k q, index this !! k = Some q →
          k = player_id q ∧ q ∈ on_destroy this ∧ q ∉ gone)
  ∧ (∀ k q, playersByUser this !! k = Some q →
            k = player_user q ∧ q ∈ on_destroy this ∧ q ∉ gone)
  ∧ (∀ k q, playersByRoom this !! k = Some q →
            k = player_room q ∧ q ∈ on_destroy this ∧ q ∉ gone).

End Players.

(** Two players of two users in the same room. *)
Definition player1 : Players.Player := Players.mkPlayer 1 10 100.

Definition player2 : Players.Player := Players.mkPlayer 2 20 100.

(** * Further notions: dispatch and start-up *)

(** What dispatch itself can add to the log for a request: lookups, the
    forward of this very message, listener calls, and replies built by the
    request's callback. *)
Definition dispatch_event (msg : Msg) (e : event) : Prop :=
  match e with
  | EvRegistryGet _ _ | EvHGET _ _ | EvHandler _ _ _ _ => True
  | EvServerSend name m _ _ => name = "_message" ∧ m = msg
  | EvSocketSend env => ∃ err d, env = reply_envelope msg err d
  | _ => False
  end.

(** A listener script that only replies. *)
Definition replies_only {D} (acts : list (action D)) : Prop :=
  Forall (λ a, match a with Reply _ _ => True | Throw _ => False end) acts.

(** The envelope of one reply action. *)
Definition envelope_of (msg : Msg) (a : action value) : list event :=
  match a with
  | Reply err d => [EvSocketSend (reply_envelope msg err d)]
  | Throw _ => []
  end.

(** A listener that calls the callback twice. *)
Definition answers_twice : handler :=
  λ _ _, [Reply None (VStr "first"); Reply None (VStr "second")].

(** An authentication policy that refuses everybody. *)
Definition refuse_all : auth_handler :=
  λ _ _, [Reply (Some (mkError "denied")) 0].

Definition world_with_policy : World :=
  mkWorld (mkPlayNetwork (Some 1) ∅ ∅ ∅ ["destroy"] ∅ [refuse_all])
    (mkRedis {[ "_id:server" := 1 ]} ∅) None [].

(** A message without scope, and one with a scope type nobody knows. *)
Definition unscoped_msg : Msg := mkMsg "hello" None VNull (VNum 5).

Definition galaxy_msg : Msg :=
  mkMsg "hello" (Some (mkScope "galaxy" 1)) VNull (VNum 5).

(** Settings that pass the validation: the four values are truthy and
    [settings.server] is an [http.Server] or an [https.Server]. *)
Definition valid (s : Settings) : Prop :=
  truthy (redisUrl s) = true ∧ truthy (scriptsPath s) = true
  ∧ truthy (templatesPath s) = true ∧ truthy (levelProvider s) = true
  ∧ (instanceof_http (server s) = true ∨ instanceof_https (server s) = true).

(** A reply echoes its request: same name, same id. *)
Definition echoes (msg : Msg) (e : event) : Prop :=
  match e with
  | EvSocketSend env => env_name env = msg_name msg ∧ env_id env = msg_id msg
  | _ => True
  end.

(** The log grew by events that all satisfy [P]. *)
Definition log_grows (P : event → Prop) (w w' : World) : Prop :=
  ∃ evs, log w' = log w ++ evs ∧ Forall P evs.

(** A process whose listener of 'twice' answers twice. *)
Definition world_twice : World :=
  mkWorld (mkPlayNetwork (Some 1) ∅ ∅ ∅ ["destroy"]
             {[ "twice" := [answers_twice] ]} [])
    (mkRedis ∅ ∅) None [].

Definition twice_msg : Msg := mkMsg "twice" None VNull (VNum 7).

(** * The Players registry: broadcast *)

(** [send(name, data)]: [player.send(name, data)] for each entry of the Map.
    The result records, under the key of each entry, the player that was
    sent to and what it was sent; every entry is visited once.  The order of
    the visits is not represented. *)
Definition Players_send (name : string) (data : value)
    (this : Players.Players) : gmap Z (Players.Player * string * value) :=
  (λ player, (player, name, data)) <$> Players.index this.

(** A second player of the user of [player1], in another room. *)
Definition player3 : Players.Player := Players.mkPlayer 3 10 300.

(** * The file level provider *)

Module FileLevelProvider.

(** The file system as the provider sees it: a path is a directory, a file
    with its contents, or nothing.  A path is the string the provider
    builds; the directories above it are the parts before its separators.
    The contents of a file are bytes; a JavaScript string is written in its
    UTF-8 encoding, which is how the strings stand here. *)
Record FS := mkFS {
  dirs : gset string;
  files : gmap string string
}.

(** What [readFileSync] returns when no encoding is asked for: a [Buffer]
    of the bytes of the file, not a string. *)
Record Buffer := mkBuffer { bytes : string }.

Inductive outcome (A : Type) : Type :=
| Returned (a : A) (fs : FS) (errors : list string)
| Thrown (code : string).
Arguments Returned {A} a fs errors.
Arguments Thrown {A} code.

(** The result of a call of the [fs] module that returns nothing. *)
Inductive sys : Type :=
| Done (fs : FS)
| Fail (code : string).

(** The directories above [path]: what stands before each separator. *)
Fixpoint parents (before path : string) : list string :=
  match path with
  | "" => []
  | String c rest =>
      (if bool_decide (c = "/"%char) then [before] else [])
      ++ parents (before +:+ String c "") rest
  end.

Definition ancestors (path : string) : list string := parents "" path.

Definition is_file (fs : FS) (path : string) : bool :=
  bool_decide (is_Some (files fs !! path)).

(** [fs.mkdirSync(path, { recursive: true })]: creates the directory and
    those above it; nothing to do for the ones that are there; EEXIST when
    the path is a file, ENOTDIR when a path above it is a file. *)
Definition mkdirSync (path : string) (fs : FS) : sys :=
  if is_file fs path then Fail "EEXIST"
  else if existsb (is_file fs) (ancestors path) then Fail "ENOTDIR"
  else Done (mkFS ({[ path ]} ∪ list_to_set (ancestors path) ∪ dirs fs)
               (files fs)).

(** [fs.writeFileSync(file, data)]: EISDIR when the path is a directory,
    ENOTDIR when a path above it is a file, ENOENT when the directory it
    is to stand in (if the path names one) is not there. *)
Definition writeFileSync (file data : string) (fs : FS) : sys :=
  if bool_decide (file ∈ dirs fs) then Fail "EISDIR"
  else if existsb (is_file fs) (ancestors file) then Fail "ENOTDIR"
  else if match last (ancestors file) with
          | Some d => bool_decide (d ≠ "") && bool_decide (d ∉ dirs fs)
          | None => false
          end
  then Fail "ENOENT"
  else Done (mkFS (dirs fs) (<[file := data]> (files fs))).

(** [fs.readFileSync(file)]: the contents, or an exception (ENOENT,
    EISDIR). *)
Definition readFileSync (file : string) (fs : FS) : option Buffer :=
  mkBuffer <$> files fs !! file.

(** [fs.existsSync(path)]. *)
Definition existsSync (path : string) (fs : FS) : bool :=
  bool_decide (is_Some (files fs !! path)) || bool_decide (path ∈ dirs fs).

Record Provider := mkProvider { path : string }.

(** The template literal [`${this.path}/${id}.json`], for a numeric id. *)
Definition file_of (this : Provider) (id : Z) : string :=
  path this +:+ "/" +:+ pretty id +:+ ".json".

Definition save (this : Provider) (id : Z) (data : string) (fs : FS)
    : outcome unit :=
  match mkdirSync (path this) fs with
  | Fail code => Thrown code
  | Done fs1 =>
      match writeFileSync (file_of this id) data fs1 with
      | Fail code => Thrown code
      | Done fs2 => Returned tt fs2 []
      end
  end.

(** [load] catches what [readFileSync] throws, logs it with
    [console.error] and returns [undefined] ([None]). *)
Definition load (this : Provider) (id : Z) (fs : FS)
    : outcome (option Buffer) :=
  match readFileSync (file_of this id) fs with
  | Some data => Returned (Some data) fs []
  | None => Returned None fs [file_of this id]
  end.

Definition has (this : Provider) (id : Z) (fs : FS) : bool :=
  existsSync (file_of this id) fs.

End FileLevelProvider.

(** A provider on the directory 'levels' and an empty file system. *)
Definition levels_provider : FileLevelProvider.Provider :=
  FileLevelProvider.mkProvider "levels".

Definition empty_fs : FileLevelProvider.FS := FileLevelProvider.mkFS ∅ ∅.

(** The file system after level 3 was saved with the contents '{}'. *)
Definition fs_with_level3 : FileLevelProvider.FS :=
  FileLevelProvider.mkFS ({[ "levels" ]} ∪ ∅ ∪ ∅)
    (<["levels/3.json" := "{}"]> ∅).

(** A provider below 'data', and a file system in which 'data' is a file. *)
Definition nested_provider : FileLevelProvider.Provider :=
  FileLevelProvider.mkProvider "data/levels".

Definition fs_with_file_data : FileLevelProvider.FS :=
  FileLevelProvider.mkFS ∅ {[ "data" := "x" ]}.

(** * The client *)

Module Client.

(** A message received from the server, parsed:
    [{ name, data, roomId?, callbackId? }].  [callbackId] is a number or is
    not there. *)
Record Incoming := mkIncoming {
  in_name : string;
  in_data : value;
  in_roomId : value;
  in_callbackId : option Z
}.

(** A message sent to the server: [{ name, data, roomId, callbackId? }]. *)
Record Outgoing := mkOutgoing {
  out_name : string;
  out_data : value;
  out_roomId : value;
  out_callbackId : option Z
}.

(** A callback given to [send]: called with the data of the reply, it
    returns or throws. *)
Definition Callback : Type := value → option Error.

Inductive event : Type :=
| SocketSend (m : Outgoing)
| ConsoleError (err : value)
| ConsoleWarn (callbackId : Z)
| Called (callbackId : Z) (data : value)
| RoomFire (room : Z) (name : string) (data : value)
| Fire (name : string) (data : value) (roomId : value).

Record PlayCanvasNetwork := mkClient {
  lastCallbackId : Z;
  callbacks : gmap Z Callback;
  rooms : gset Z;                  (* the ids [this.rooms.get] finds *)
  log : list event
}.

(** The constructor, with the rooms that are known. *)
Definition new (known : gset Z) : PlayCanvasNetwork := mkClient 0 ∅ known [].

Definition emit (e : event) (this : PlayCanvasNetwork) : PlayCanvasNetwork :=
  mkClient (lastCallbackId this) (callbacks this) (rooms this)
    (log this ++ [e]).

(** [v?.err]: the property of an object, [undefined] on anything else. *)
Definition err_of (v : value) : value :=
  match v with
  | VObj fields =>
      match List.find (λ kv, bool_decide (kv.1 = "err")) fields with
      | Some kv => kv.2
      | None => VUndefined
      end
  | _ => VUndefined
  end.

Definition _send (name : string) (data roomId : value)
    (callback : option Callback) (this : PlayCanvasNetwork)
    : PlayCanvasNetwork :=
  match callback with
  | Some cb =>
      let msg := mkOutgoing name data roomId (Some (lastCallbackId this)) in
      emit (SocketSend msg)
        (mkClient (lastCallbackId this + 1)
           (<[lastCallbackId this := cb]> (callbacks this)) (rooms this)
           (log this))
  | None => emit (SocketSend (mkOutgoing name data roomId None)) this
  end.

Definition send (name : string) (data : value) (callback : option Callback)
    (this : PlayCanvasNetwork) : PlayCanvasNetwork :=
  _send name data VNull callback this.

(** The end of [onmessage]: the event of the room, then the event of the
    client. *)
Definition fire_events (msg : Incoming) (this : PlayCanvasNetwork)
    : PlayCanvasNetwork :=
  let this :=
    if truthy (in_roomId msg) then
      match in_roomId msg with
      | VNum room =>
          if bool_decide (room ∈ rooms this)
          then emit (RoomFire room (in_name msg) (in_data msg)) this
          else this
      | _ => this
      end
    else this in
  emit (Fire (in_name msg) (in_data msg) (in_roomId msg)) this.

(** [socket.onmessage], on the parsed message.  The first component is the
    exception that left the listener, if one did. *)
Definition onmessage (msg : Incoming) (this : PlayCanvasNetwork)
    : option Error * PlayCanvasNetwork :=
  if truthy (err_of (in_data msg)) then
    (None, emit (ConsoleError (err_of (in_data msg))) this)
  else
    match in_callbackId msg with
    | Some id =>
        if bool_decide (0 ≤ id) then
          match callbacks this !! id with
          | None => (None, emit (ConsoleWarn id) this)
          | Some callback =>
              let this := emit (Called id (in_data msg)) this in
              match callback (in_data msg) with
              | Some e => (Some e, this)
              | None =>
                  (None,
                   fire_events msg
                     (mkClient (lastCallbackId this)
                        (delete id (callbacks this)) (rooms this)
                        (log this)))
              end
          end
        else (None, fire_events msg this)
    | None => (None, fire_events msg this)
    end.

(** What a client goes through: it sends and it receives. *)
Inductive reachable : PlayCanvasNetwork → Prop :=
| reach_new known : reachable (new known)
| reach_send this name data roomId callback :
    reachable this → reachable (_send name data roomId callback this)
| reach_onmessage this msg :
    reachable this → reachable (onmessage msg this).2.

End Client.

(** A callback that returns, and a client that no room is known to. *)
Definition quiet_callback : Client.Callback := λ _, None.

Definition fresh_client : Client.PlayCanvasNetwork := Client.new ∅.

(** Events that only announce a message: the event of a room or of the
    client. *)
Definition announcement (e : Client.event) : Prop :=
  match e with
  | Client.RoomFire _ _ _ | Client.Fire _ _ _ => True
  | _ => False
  end.

(** A response of the server as the client parses it: the envelope
    [{ name, data, id }] has no [roomId] and no [callbackId]. *)
Definition envelope_received (env : Envelope) : Client.Incoming :=
  Client.mkIncoming (env_name env) (env_data env) VUndefined None.

(** A request of the client as the server parses it: the message
    [{ name, data, roomId, callbackId? }] has no [scope] and no [id]. *)
Definition request_received (m : Client.Outgoing) : Msg :=
  mkMsg (Client.out_name m) None (Client.out_data m) VUndefined.

(** A reply for the callback 0, with the data 'ok'. *)
Definition reply0 : Client.Incoming :=
  Client.mkIncoming "pong" (VStr "ok") VUndefined (Some 0).

(** * The network entities of a room *)

Module NetworkEntities.

(** Entities and scripts are objects; they are told apart by a key. *)
Record Entity := mkEntity { entity_key : Z }.

Record Script := mkScript { script_key : Z; script_entity : Entity }.

(** What is sent to the players of the room:
    ['networkEntities:create'] with the data of an entity ([toData], which
    is not modelled, computes it from the entity), and
    ['networkEntities:delete'] with an id. *)
Inductive event : Type :=
| SendCreate (entity : Entity)
| SendDelete (id : Z).

Record NetworkEntities := mkNetworkEntities {
  ids : Z;
  index : gmap Z Entity;
  script_ids : gmap Z Z;            (* [script.id], by script *)
  once_destroy : list (Z * Z);      (* 'destroy' listeners: script, id *)
  log : list event
}.

Definition new : NetworkEntities := mkNetworkEntities 0 ∅ ∅ [] [].

Definition set (id : Z) (entity : Entity) (this : NetworkEntities)
    : NetworkEntities :=
  mkNetworkEntities (ids this) (<[id := entity]> (index this))
    (script_ids this) (once_destroy this) (log this ++ [SendCreate entity]).

Definition create (script : Script) (this : NetworkEntities)
    : NetworkEntities :=
  let id := ids this in
  let this :=
    mkNetworkEntities (ids this + 1) (index this)
      (<[script_key script := id]> (script_ids this)) (once_destroy this)
      (log this) in
  let this := set id (script_entity script) this in
  mkNetworkEntities (ids this) (index this) (script_ids this)
    (once_destroy this ++ [(script_key script, id)]) (log this).

(** The listener that [create] attaches, once, to the script's 'destroy'. *)
Definition destroy_listener (id : Z) (this : NetworkEntities)
    : NetworkEntities :=
  mkNetworkEntities (ids this) (base.delete id (index this))
    (script_ids this) (once_destroy this) (log this ++ [SendDelete id]).

(** [script.fire('destroy')]: the listeners attached to this script run, in
    the order they were attached, and are forgotten. *)
Definition fire_destroy (script : Script) (this : NetworkEntities)
    : NetworkEntities :=
  foldl (λ s l, destroy_listener l.2 s)
    (mkNetworkEntities (ids this) (index this) (script_ids this)
       (filter (λ l, l.1 ≠ script_key script) (once_destroy this))
       (log this))
    (filter (λ l, l.1 = script_key script) (once_destroy this)).

Definition delete (id : Z) (this : NetworkEntities) : NetworkEntities :=
  mkNetworkEntities (ids this) (base.delete id (index this))
    (script_ids this) (once_destroy this) (log this).

(** [get(id)]: the entity, or [null]. *)
Definition get (id : Z) (this : NetworkEntities) : option Entity :=
  index this !! id.

(** The life of the registry: scripts are created and destroyed and entries
    are deleted ([set] is used by [create] only). *)
Inductive reachable : NetworkEntities → Prop :=
| reach_new : reachable new
| reach_create this script : reachable this → reachable (create script this)
| reach_destroy this script :
    reachable this → reachable (fire_destroy script this)
| reach_delete this id : reachable this → reachable (delete id this).

End NetworkEntities.

Definition script1 : NetworkEntities.Script :=
  NetworkEntities.mkScript 1 (NetworkEntities.mkEntity 11).

(** * Properties *)


(** Unfolds the monad at the head of the goal: state, log and exceptions are
    threaded by [M_bind], so a run of a straight-line computation reduces to
    its result and final world. *)
Ltac run_m :=
  cbv [mbind M_bind mret M_ret raise emit get_pn set_pn get_redis set_redis
       get_user set_user];
  cbn [fst snd pn redis user log counters hashes].

(** ** The monad and the log *)

Lemma bind_run {A B} (m : M A) (f : A → M B) w a w' :
  m w = (Val a, w') → (m ≫= f) w = f a w'.
Proof. intros H. unfold mbind, M_bind. by rewrite H. Qed.

Lemma bind_exn {A B} (m : M A) (f : A → M B) w e w' :
  m w = (Exn e, w') → (m ≫= f) w = (Exn e, w').
Proof. intros H. unfold mbind, M_bind. by rewrite H. Qed.

Lemma with_log_nil w : with_log w [] = w.
Proof. destruct w. unfold with_log. cbn. by rewrite app_nil_r. Qed.

Lemma with_log_app w e1 e2 :
  with_log (with_log w e1) e2 = with_log w (e1 ++ e2).
Proof. unfold with_log. cbn. by rewrite app_assoc. Qed.

(** ** Identifier allocation *)

(** The run of [generateId]: its result and the world it leaves. *)
Lemma generateId_run (type : string) (w : World) :
  let n := default 0 (counters (redis w) !! ("_id:" +:+ type)) + 1 in
  generateId type w
  = (Val n,
     mkWorld (pn w)
       (mkRedis (<["_id:" +:+ type := n]> (counters (redis w)))
          (if bool_decide (type ≠ "server")
           then <["_route:" +:+ type :=
                    <[n := pn_id (pn w)]>
                      (default ∅ (hashes (redis w) !! ("_route:" +:+ type)))]>
                  (hashes (redis w))
           else hashes (redis w)))
       (user w)
       (log w ++ EvINCR ("_id:" +:+ type)
              :: if bool_decide (type ≠ "server")
                 then [EvHSET ("_route:" +:+ type) n (pn_id (pn w))]
                 else [])).
Proof.
  intros n. subst n. unfold generateId, INCR, HSET.
  destruct (bool_decide (type ≠ "server")); run_m; [|done].
  by rewrite <- app_assoc.
Qed.

(** The store hands out positive identifiers when its counter is not
    negative, as it is from an empty store on. *)
Lemma generateId_positive (type : string) (w : World) :
  0 ≤ default 0 (counters (redis w) !! ("_id:" +:+ type)) →
  ∃ n, (generateId type w).1 = Val n ∧ 0 < n.
Proof.
  intros Hge. rewrite generateId_run. eexists. split; [done|]. lia.
Qed.

(** C2.  [generateId(type)] increments the counter of the kind once, with the
    store's atomic increment, and returns the new value; for every kind but
    'server' the routing entry (kind, id) -> this.id is written before the
    identifier is returned, so the world in which the caller holds the
    identifier already has the entry; for 'server' nothing is written. *)
Theorem generateId_writes_route (type : string) (w : World) :
  let n := default 0 (counters (redis w) !! ("_id:" +:+ type)) + 1 in
  let w' := (generateId type w).2 in
  (generateId type w).1 = Val n
  ∧ counters (redis w') !! ("_id:" +:+ type) = Some n
  ∧ pn w' = pn w ∧ user w' = user w
  ∧ (type ≠ "server" →
       log w' = log w ++ [EvINCR ("_id:" +:+ type);
                          EvHSET ("_route:" +:+ type) n (pn_id (pn w))]
       ∧ route (redis w') type n = Some (pn_id (pn w)))
  ∧ (type = "server" →
       log w' = log w ++ [EvINCR ("_id:" +:+ type)]
       ∧ hashes (redis w') = hashes (redis w)).
Proof.
  intros n w'. subst n w'. rewrite generateId_run.
  cbn [fst snd pn redis user log counters hashes].
  rewrite lookup_insert_eq. split_and!; try done.
  - intros Hne. rewrite bool_decide_eq_true_2 by done. split; [done|].
    unfold route. cbn [hashes]. rewrite lookup_insert_eq. cbn.
    by rewrite lookup_insert_eq.
  - intros ->. by rewrite bool_decide_eq_false_2 by (intros H; by apply H).
Qed.

(** ** The reply callback and the correlation id *)

(** An error is always answered, with one envelope. *)
Lemma callback_error msg e d w :
  callback msg (Some e) d w
  = (Val tt, with_log w [EvSocketSend (reply_envelope msg (Some e) d)]).
Proof.
  unfold callback. rewrite bool_decide_eq_true_2 by eauto. done.
Qed.

(** A result is answered, with one envelope, when [msg.id] is truthy. *)
Lemma callback_success msg d w :
  truthy (msg_id msg) = true →
  callback msg None d w
  = (Val tt, with_log w [EvSocketSend (reply_envelope msg None d)]).
Proof.
  intros Hid. unfold callback. rewrite Hid, orb_true_r. done.
Qed.

(** A result is not answered when [msg.id] is falsy. *)
Lemma callback_silent msg d w :
  truthy (msg_id msg) = false → callback msg None d w = (Val tt, w).
Proof.
  intros Hid. unfold callback. rewrite Hid.
  rewrite bool_decide_eq_false_2 by (intros [x Hx]; discriminate). done.
Qed.

Lemma callback_run msg err d w :
  callback msg err d w = (Val tt, with_log w (reply_events msg err d)).
Proof.
  unfold callback, reply_events.
  destruct (bool_decide (is_Some err) || truthy (msg_id msg)); [done|].
  by rewrite with_log_nil.
Qed.

Lemma reply_events_local msg err d : Forall local_event (reply_events msg err d).
Proof.
  unfold reply_events.
  destruct (bool_decide (is_Some err) || truthy (msg_id msg)); repeat constructor.
Qed.

(** C3, at the failing input.  A request whose correlation id is 0 gets no
    response envelope when its handler succeeds: the callback tests the id
    for truthiness and 0 is falsy.  The same request with id 7 is answered
    with [{name, data, id: 7}]. *)
Theorem reply_is_dropped_for_correlation_id_zero :
  (∀ name scope data R w,
     callback (mkMsg name scope data (VNum 0)) None R w = (Val tt, w))
  ∧ deliver (ping (VNum 0)) world_ping
    = (Val tt, with_log world_ping [EvHandler TProcess "ping" None VNull])
  ∧ deliver (ping (VNum 7)) world_ping
    = (Val tt,
       with_log world_ping
         [EvHandler TProcess "ping" None VNull;
          EvSocketSend (mkEnvelope "ping" (VStr "pong") (VNum 7))]).
Proof.
  split_and!.
  - intros name scope data R w. by apply callback_silent.
  - vm_compute. reflexivity.
  - vm_compute. reflexivity.
Qed.

(** ** Handler invocation touches nothing but the socket *)

Lemma run_actions_callback msg acts w :
  ∃ evs, (run_actions (callback msg) acts w).2 = with_log w evs
         ∧ Forall local_event evs.
Proof.
  revert w. induction acts as [|[err d|e] acts IH]; intros w.
  - exists []. by rewrite with_log_nil.
  - cbn [run_actions].
    rewrite (bind_run _ _ _ _ _ (callback_run msg err d w)).
    destruct (IH (with_log w (reply_events msg err d))) as (evs & Hw & Hloc).
    exists (reply_events msg err d ++ evs). rewrite Hw, with_log_app.
    split; [done|]. apply Forall_app. split; [apply reply_events_local|done].
  - exists []. by rewrite with_log_nil.
Qed.

Lemma call_all_callback msg t name hs sender d w :
  ∃ evs, (call_all t name hs sender d (callback msg) w).2 = with_log w evs
         ∧ Forall local_event evs.
Proof.
  revert w. induction hs as [|h hs IH]; intros w.
  - exists []. by rewrite with_log_nil.
  - cbn [call_all].
    assert (Hemit : emit (EvHandler t name sender d) w
                    = (Val tt, with_log w [EvHandler t name sender d])) by done.
    rewrite (bind_run _ _ _ _ _ Hemit).
    set (w1 := with_log w [EvHandler t name sender d]).
    destruct (run_actions_callback msg (h sender d) w1) as (evs1 & Hw1 & Hl1).
    destruct (run_actions (callback msg) (h sender d) w1) as [[[]|e] w2] eqn:Hrun;
      cbn [snd] in Hw1; subst w2.
    + rewrite (bind_run _ _ _ _ _ Hrun).
      destruct (IH (with_log w1 evs1)) as (evs2 & Hw2 & Hl2).
      exists (EvHandler t name sender d :: evs1 ++ evs2).
      rewrite Hw2. unfold w1. rewrite !with_log_app. split; [done|].
      constructor; [done|]. by apply Forall_app.
    + rewrite (bind_exn _ _ _ _ _ Hrun). cbn [snd].
      exists (EvHandler t name sender d :: evs1).
      unfold w1. rewrite with_log_app. split; [done|]. by constructor.
Qed.

Lemma call_all_callback_first msg t name h hs sender d w :
  ∃ evs, (call_all t name (h :: hs) sender d (callback msg) w).2
         = with_log w (EvHandler t name sender d :: evs)
         ∧ Forall local_event evs.
Proof.
  destruct (call_all_callback msg t name (h :: hs) sender d w) as (evs & Hw & Hl).
  cbn [call_all] in *.
  assert (Hemit : emit (EvHandler t name sender d) w
                  = (Val tt, with_log w [EvHandler t name sender d])) by done.
  rewrite (bind_run _ _ _ _ _ Hemit) in *.
  set (w1 := with_log w [EvHandler t name sender d]) in *.
  destruct (call_all_callback msg t name hs sender d) with
    (w := (run_actions (callback msg) (h sender d) w1).2) as (evs2 & Hw2 & Hl2).
  destruct (run_actions_callback msg (h sender d) w1) as (evs1 & Hw1 & Hl1).
  destruct (run_actions (callback msg) (h sender d) w1) as [[[]|e] w2] eqn:Hrun;
    cbn [snd] in *; subst w2.
  - rewrite (bind_run _ _ _ _ _ Hrun). rewrite Hw2.
    exists (evs1 ++ evs2). unfold w1. rewrite !with_log_app.
    split; [done|]. by apply Forall_app.
  - rewrite (bind_exn _ _ _ _ _ Hrun). cbn [snd].
    exists evs1. unfold w1. by rewrite with_log_app.
Qed.


(** ** Dispatch: reserved names and global listeners *)

(** C6.  A message whose name is reserved is answered through the reply
    callback with the reserved-name error and nothing else happens: no
    listener is called, no registry or routing lookup is made, nothing is
    forwarded.  This holds whoever the sender is (authenticated or not), and
    'destroy' is reserved from construction. *)
Theorem reserved_name_is_refused (msg : Msg) (u : option User)
    (cb : option Error → value → M unit) (w : World) :
  msg_name msg ∈ _reservedEvents (pn w) →
  _onMessage msg u cb w = cb (Some (ReservedName (msg_name msg))) VUndefined w
  ∧ _onMessage msg u (callback msg) w
    = (Val tt,
       with_log w
         [EvSocketSend
            (mkEnvelope (msg_name msg)
               (VObj [("err", VStr (message (ReservedName (msg_name msg))))])
               (msg_id msg))])
  ∧ (msg_name msg ≠ "_authenticate" →
     on_message msg w = _onMessage msg (user w) (callback msg) w)
  ∧ "destroy" ∈ _reservedEvents new_PlayNetwork.
Proof.
  intros Hres.
  assert (Hgen : ∀ k, _onMessage msg u k w
                      = k (Some (ReservedName (msg_name msg))) VUndefined w).
  { intros k. unfold _onMessage. run_m.
    by rewrite bool_decide_eq_true_2. }
  split_and!.
  - apply Hgen.
  - rewrite Hgen. apply callback_error.
  - intros Hname. unfold on_message.
    rewrite bool_decide_eq_false_2 by done. by run_m.
  - cbn. set_solver.
Qed.

(** C6 on a request: 'destroy' sent by an unauthenticated connection. *)
Lemma reserved_name_is_refused_witness :
  _onMessage destroy_msg None (callback destroy_msg) world_ping
  = (Val tt,
     with_log world_ping
       [EvSocketSend
          (mkEnvelope "destroy"
             (VObj [("err", VStr "Event destroy is reserved")]) (VNum 9))]).
Proof.
  assert (H : msg_name destroy_msg ∈ _reservedEvents (pn world_ping))
    by (apply (bool_decide_unpack _); by vm_compute).
  exact (proj1 (proj2 (reserved_name_is_refused destroy_msg None
                         (callback destroy_msg) world_ping H))).
Defined.

(** With a listener on the process and no reserved name, dispatch is the
    call of the process's listeners, whatever the callback. *)
Lemma _onMessage_global msg u cb w :
  msg_name msg ∉ _reservedEvents (pn w) →
  hasEvent (pn w) (msg_name msg) = true →
  _onMessage msg u cb w
  = call_all TProcess (msg_name msg) (pn_listeners (pn w) (msg_name msg))
      (user_id <$> u) (msg_data msg) cb w.
Proof.
  intros Hres Hhas. unfold _onMessage, pn_fire. run_m.
  rewrite bool_decide_eq_false_2 by done. by rewrite Hhas.
Qed.

(** A script that does not throw runs to its end, and each of its calls of
    the callback is a reply of the request. *)
Lemma run_actions_returns msg acts w :
  returns_normally acts →
  run_actions (callback msg) acts w
  = (Val tt, with_log w (script_events msg acts)).
Proof.
  intros Hacts. revert w.
  induction Hacts as [|[err d|e] acts Ha _ IH]; intros w; [| |destruct Ha].
  - cbn. by rewrite with_log_nil.
  - cbn [run_actions]. rewrite (bind_run _ _ _ _ _ (callback_run msg err d w)).
    by rewrite IH, with_log_app.
Qed.

Lemma call_all_returns msg t name hs sender d w :
  Forall (λ h : handler, returns_normally (h sender d)) hs →
  call_all t name hs sender d (callback msg) w
  = (Val tt,
     with_log w
       (hs ≫= λ h, EvHandler t name sender d :: script_events msg (h sender d))).
Proof.
  intros Hhs. revert w. induction Hhs as [|h hs Hh _ IH]; intros w.
  - cbn. by rewrite with_log_nil.
  - cbn [call_all].
    assert (Hemit : emit (EvHandler t name sender d) w
                    = (Val tt, with_log w [EvHandler t name sender d])) by done.
    rewrite (bind_run _ _ _ _ _ Hemit).
    rewrite (bind_run _ _ _ _ _ (run_actions_returns msg _ _ Hh)).
    rewrite IH, !with_log_app. reflexivity.
Qed.

(** C5.  When the name is not reserved and the process has a listener for
    it, dispatch calls the process's listeners for that name and stops,
    whatever the scope of the message.  Every listener is called with the
    sender and the data, and what it does with the callback it is given is
    a reply of the request: when the listeners return, the log gains, for
    each listener in turn, its call followed by the envelopes of its calls
    of the callback, and nothing else, and the world is otherwise
    unchanged.  When a listener throws, the first listener was still
    called and the log holds only listener calls and replies.  In both
    cases there is no registry lookup, no routing lookup and no forward. *)
Theorem global_handler_preempts (msg : Msg) (u : option User) (w : World) :
  msg_name msg ∉ _reservedEvents (pn w) →
  hasEvent (pn w) (msg_name msg) = true →
  (Forall (λ h : handler,
             returns_normally (h (user_id <$> u) (msg_data msg)))
     (pn_listeners (pn w) (msg_name msg)) →
   _onMessage msg u (callback msg) w
   = (Val tt,
      with_log w
        (pn_listeners (pn w) (msg_name msg) ≫= λ h,
           EvHandler TProcess (msg_name msg) (user_id <$> u) (msg_data msg)
           :: (h (user_id <$> u) (msg_data msg) ≫= λ a,
                 match a with
                 | Reply err d =>
                     if bool_decide (is_Some err) || truthy (msg_id msg)
                     then [EvSocketSend
                             (mkEnvelope (msg_name msg)
                                (match err with
                                 | Some e => VObj [("err", VStr (message e))]
                                 | None => d
                                 end)
                                (msg_id msg))]
                     else []
                 | Throw _ => []
                 end))))
  ∧ ∃ evs,
      (_onMessage msg u (callback msg) w).2
      = with_log w
          (EvHandler TProcess (msg_name msg) (user_id <$> u) (msg_data msg)
             :: evs)
      ∧ Forall local_event evs.
Proof.
  intros Hres Hhas. rewrite _onMessage_global by done. split.
  - intros Hhs. by rewrite call_all_returns.
  - unfold hasEvent in Hhas.
    destruct (pn_listeners (pn w) (msg_name msg)) as [|h hs]; [done|].
    apply call_all_callback_first.
Qed.

(** C5 on a 'ping' addressed to room 5, which this process holds and which
    has a 'ping' listener of its own: the listener of the process answers
    and the room is not looked up. *)
Lemma global_handler_preempts_witness :
  _onMessage ping_room5 None (callback ping_room5) world_ping_room5
  = (Val tt,
     with_log world_ping_room5
       [EvHandler TProcess "ping" None VNull;
        EvSocketSend (mkEnvelope "ping" (VStr "pong") (VNum 7))]).
Proof.
  refine (proj1 (global_handler_preempts ping_room5 None world_ping_room5
                   _ eq_refl) _).
  - apply (bool_decide_unpack _). by vm_compute.
  - repeat constructor.
Defined.

(** ** Dispatch by scope *)

(** Dispatch once the reserved names and the global listeners are passed. *)
Lemma _onMessage_scoped msg sc u cb w :
  msg_scope msg = Some sc →
  msg_name msg ∉ _reservedEvents (pn w) →
  hasEvent (pn w) (msg_name msg) = false →
  _onMessage msg u cb w
  = (if bool_decide (scope_type sc = "server") then
       pn_fire (msg_name msg) (user_id <$> u) (msg_data msg) cb
     else if bool_decide (scope_type sc = "user") then
       target ← users_get (scope_id sc);
       match target with
       | Some t =>
           fire (TUser (scope_id sc)) (user_callbacks t) (msg_name msg)
             (user_id <$> u) (msg_data msg) cb
       | None => mret tt
       end
     else if bool_decide (scope_type sc = "room") then
       target ← rooms_get (scope_id sc);
       match target with
       | Some r =>
           fire (TRoom (scope_id sc)) r (msg_name msg)
             (user_id <$> u) (msg_data msg) cb
       | None =>
           reply ← HGET "_route:room" (scope_id sc);
           let serverId := parseInt reply in
           if falsy_num serverId then mret tt
           else server_send "_message" msg serverId
       end
     else if bool_decide (scope_type sc = "networkEntity") then
       target ← networkEntities_get (scope_id sc);
       match target with
       | Some r =>
           fire (TNetworkEntity (scope_id sc)) r (msg_name msg)
             (user_id <$> u) (msg_data msg) cb
       | None =>
           reply ← HGET "_route:networkEntity" (scope_id sc);
           let serverId := parseInt reply in
           if falsy_num serverId then mret tt
           else server_send "_message" msg serverId
       end
     else mret tt) w.
Proof.
  intros Hsc Hres Hhas. unfold _onMessage.
  rewrite (bind_run get_pn _ w (pn w) w) by done.
  rewrite bool_decide_eq_false_2 by done. by rewrite Hhas, Hsc.
Qed.

Lemma users_get_run id w :
  users_get id w
  = (Val (users (pn w) !! id),
     with_log w
       (EvRegistryGet "user" id
        :: match users (pn w) !! id with
           | Some _ => []
           | None => [EvHGET "_route:user" id]
           end)).
Proof.
  unfold users_get, HGET, with_log. run_m.
  destruct (users (pn w) !! id); run_m; [done|].
  by rewrite <- app_assoc.
Qed.

Lemma rooms_get_run id w :
  rooms_get id w
  = (Val (rooms (pn w) !! id), with_log w [EvRegistryGet "room" id]).
Proof. done. Qed.

Lemma networkEntities_get_run id w :
  networkEntities_get id w
  = (Val (networkEntities (pn w) !! id),
     with_log w [EvRegistryGet "networkEntity" id]).
Proof. done. Qed.

(** What a local miss of a routed kind does: one routing lookup, then one
    forward to the owner it names, or nothing. *)
Lemma route_or_drop kind msg id w :
  (reply ← HGET ("_route:" +:+ kind) id;
   let serverId := parseInt reply in
   if falsy_num serverId then mret tt
   else server_send "_message" msg serverId) w
  = (Val tt,
     with_log w
       (EvHGET ("_route:" +:+ kind) id
        :: if falsy_num (parseInt (route (redis w) kind id)) then []
           else [EvServerSend "_message" msg
                   (parseInt (route (redis w) kind id)) (pn_id (pn w))])).
Proof.
  unfold HGET, server_send, route, with_log. run_m.
  destruct (falsy_num _); run_m; [done|].
  by rewrite <- app_assoc.
Qed.

(** C1.  A message scoped to a room or a network entity, with no reserved
    name and no global listener, first asks the local registry.  On a hit
    the target's listeners are called and the routing table is not read.
    On a miss the routing table is read once; if it names an owner the
    message is forwarded to it once, with the id of this process, and
    nothing is replied; if it has no entry the message is dropped: nothing
    but the two lookups happened. *)
Theorem routed_scope_resolution (kind : string) (msg : Msg) (sc : Scope)
    (u : option User) (w : World) :
  kind = "room" ∨ kind = "networkEntity" →
  msg_scope msg = Some sc →
  scope_type sc = kind →
  msg_name msg ∉ _reservedEvents (pn w) →
  hasEvent (pn w) (msg_name msg) = false →
  let id := scope_id sc in
  let out := _onMessage msg u (callback msg) w in
  match registry (pn w) kind !! id with
  | Some t =>
      out = fire (target_of kind id) t (msg_name msg) (user_id <$> u)
              (msg_data msg) (callback msg)
              (with_log w [EvRegistryGet kind id])
      ∧ ∃ evs, out.2 = with_log w (EvRegistryGet kind id :: evs)
               ∧ Forall local_event evs
  | None =>
      let owner := parseInt (route (redis w) kind id) in
      out = (Val tt,
             with_log w
               (EvRegistryGet kind id
                :: EvHGET ("_route:" +:+ kind) id
                :: if falsy_num owner then []
                   else [EvServerSend "_message" msg owner (pn_id (pn w))]))
      ∧ (∀ p, route (redis w) kind id = Some (Some p) → p ≠ 0 →
              out.2 = with_log w
                        [EvRegistryGet kind id;
                         EvHGET ("_route:" +:+ kind) id;
                         EvServerSend "_message" msg (Num p) (pn_id (pn w))])
      ∧ (route (redis w) kind id = None →
         out.2 = with_log w [EvRegistryGet kind id;
                             EvHGET ("_route:" +:+ kind) id])
  end.
Proof.
  intros Hkind Hsc Hty Hres Hhas id out. subst out id.
  rewrite (_onMessage_scoped msg sc u _ w Hsc Hres Hhas).
  assert (Hlocal : ∀ t, ∃ evs,
             (fire (target_of kind (scope_id sc)) t (msg_name msg)
                (user_id <$> u) (msg_data msg) (callback msg)
                (with_log w [EvRegistryGet kind (scope_id sc)])).2
             = with_log w (EvRegistryGet kind (scope_id sc) :: evs)
             ∧ Forall local_event evs).
  { intros t. unfold fire.
    destruct (call_all_callback msg (target_of kind (scope_id sc))
                (msg_name msg) (listeners t (msg_name msg)) (user_id <$> u)
                (msg_data msg) (with_log w [EvRegistryGet kind (scope_id sc)]))
      as (evs & Hw & Hl).
    exists evs. by rewrite Hw, with_log_app. }
  destruct Hkind as [-> | ->]; rewrite Hty; unfold registry, target_of in *;
    cbn [bool_decide decide_rel] in *.
  - (* room *)
    rewrite (bool_decide_eq_false_2 ("room" = "server")) by done.
    rewrite (bool_decide_eq_false_2 ("room" = "user")) by done.
    rewrite !(bool_decide_eq_true_2 ("room" = "room")) in * by done.
    rewrite (bind_run _ _ _ _ _ (rooms_get_run (scope_id sc) w)).
    destruct (rooms (pn w) !! scope_id sc) as [t|] eqn:Hreg.
    + split; [done|]. apply Hlocal.
    + rewrite (route_or_drop "room" msg (scope_id sc)).
      rewrite with_log_app. cbn [redis pn with_log app].
      split; [done|]. split.
      * intros p Hp Hp0. rewrite Hp. cbn [parseInt falsy_num snd].
        by rewrite (proj2 (Z.eqb_neq p 0) Hp0).
      * intros Hnone. by rewrite Hnone.
  - (* networkEntity *)
    rewrite (bool_decide_eq_false_2 ("networkEntity" = "server")) by done.
    rewrite (bool_decide_eq_false_2 ("networkEntity" = "user")) by done.
    rewrite !(bool_decide_eq_false_2 ("networkEntity" = "room")) in * by done.
    rewrite (bool_decide_eq_true_2 ("networkEntity" = "networkEntity")) by done.
    rewrite (bind_run _ _ _ _ _ (networkEntities_get_run (scope_id sc) w)).
    destruct (networkEntities (pn w) !! scope_id sc) as [t|] eqn:Hreg.
    + split; [done|]. apply Hlocal.
    + rewrite (route_or_drop "networkEntity" msg (scope_id sc)).
      rewrite with_log_app. cbn [redis pn with_log app].
      split; [done|]. split.
      * intros p Hp Hp0. rewrite Hp. cbn [parseInt falsy_num snd].
        by rewrite (proj2 (Z.eqb_neq p 0) Hp0).
      * intros Hnone. by rewrite Hnone.
Qed.

(** C1 on a request: room 5 lives on process 2, the message reaches
    process 1. *)
Lemma routed_scope_resolution_witness :
  (_onMessage fire_room5 None (callback fire_room5) world1).2
  = with_log world1 [EvRegistryGet "room" 5; EvHGET "_route:room" 5;
                     EvServerSend "_message" fire_room5 (Num 2) (Some 1)].
Proof.
  apply (routed_scope_resolution "room" fire_room5 (mkScope "room" 5) None
           world1);
    [by left | reflexivity | reflexivity | apply (bool_decide_unpack _); by vm_compute
    | reflexivity | vm_compute; reflexivity | lia].
Defined.

(** The scenario of the design document: process 2 allocates room 5; a
    message for room 5 reaches process 1, whose registry misses; the store
    names process 2 and the message is forwarded there, once. *)
Example room_allocated_elsewhere_is_forwarded :
  let w2 := (generateId "room" world_of_process2).2 in
  (generateId "room" world_of_process2).1 = Val 5
  ∧ _onMessage fire_room5 None (callback fire_room5)
      (world_of_process1_after w2)
    = (Val tt,
       with_log (world_of_process1_after w2)
         [EvRegistryGet "room" 5; EvHGET "_route:room" 5;
          EvServerSend "_message" fire_room5 (Num 2) (Some 1)]).
Proof. vm_compute. done. Qed.


(** ** Authentication *)

(** What [connectUser(id)] does, for the callback of the request. *)
Lemma connectUser_run msg id w :
  connectUser (callback msg) id w
  = (Val tt,
     mkWorld
       (mkPlayNetwork (pn_id (pn w)) (<[id := new_User id]> (users (pn w)))
          (rooms (pn w)) (networkEntities (pn w)) (_reservedEvents (pn w))
          (_callbacks (pn w)) (authenticate_listeners (pn w)))
       (redis w) (Some (new_User id))
       (log w ++ [EvRegistryAdd "user" id] ++ reply_events msg None (VNum id)
              ++ [EvPerformance "connectSocket"])).
Proof.
  unfold connectUser, users_add. run_m. cbn [user_id new_User].
  match goal with |- context [callback msg None (VNum id) ?w1] =>
    rewrite (callback_run msg None (VNum id) w1) end.
  unfold with_log. cbn [fst snd pn redis user log].
  by rewrite <- !app_assoc.
Qed.

(** The reply of a success, written out. *)
Lemma reply_events_success msg d :
  reply_events msg None d
  = if truthy (msg_id msg)
    then [EvSocketSend (mkEnvelope (msg_name msg) d (msg_id msg))] else [].
Proof.
  unfold reply_events, reply_envelope.
  rewrite (bool_decide_eq_false_2 (is_Some (@None Error)))
    by (intros [? ?]; discriminate).
  reflexivity.
Qed.

(** C7 (as amended).  An [_authenticate] message is handled in the same way
    whatever the state of the session, so also when it is already
    authenticated.  With no authentication policy registered a fresh user
    identifier is allocated and routed to this process; with a policy that
    accepts, the identifier is the one the policy gives.  In both cases a new
    User is created, bound to the connection in place of the one bound
    before and added to the registry, and the message is not failed: no
    error envelope is sent and the socket is not closed.  It is answered as
    a first [_authenticate] is: a message that carries a truthy correlation
    id gets one envelope with the new identifier as data and that id; a
    message that carries none gets no envelope. *)
Theorem authenticate_again_rebinds (msg : Msg) (w : World) :
  msg_name msg = "_authenticate" →
  let w' := (on_message msg w).2 in
  (hasEvent (pn w) "authenticate" = false →
   let n := default 0 (counters (redis w) !! "_id:user") + 1 in
   (on_message msg w).1 = Val tt
   ∧ user w' = Some (new_User n)
   ∧ users (pn w') = <[n := new_User n]> (users (pn w))
   ∧ log w' = log w ++ [EvINCR "_id:user";
                        EvHSET "_route:user" n (pn_id (pn w));
                        EvRegistryAdd "user" n]
                    ++ (if truthy (msg_id msg)
                        then [EvSocketSend
                                (mkEnvelope "_authenticate" (VNum n)
                                   (msg_id msg))]
                        else [])
                    ++ [EvPerformance "connectSocket"])
  ∧ (∀ h uid,
       authenticate_listeners (pn w) = [h] →
       h (user_id <$> user w) (msg_data msg) = [Reply None uid] →
       (on_message msg w).1 = Val tt
       ∧ user w' = Some (new_User uid)
       ∧ users (pn w') = <[uid := new_User uid]> (users (pn w))
       ∧ log w' = log w ++ [EvHandler TProcess "authenticate"
                              (user_id <$> user w) (msg_data msg);
                            EvRegistryAdd "user" uid]
                        ++ (if truthy (msg_id msg)
                            then [EvSocketSend
                                    (mkEnvelope "_authenticate" (VNum uid)
                                       (msg_id msg))]
                            else [])
                        ++ [EvPerformance "connectSocket"]).
Proof.
  intros Hname w'. subst w'.
  unfold on_message. rewrite bool_decide_eq_true_2 by done.
  unfold on_authenticate.
  rewrite (bind_run get_pn _ w (pn w) w) by done.
  split.
  - intros Hpol. rewrite Hpol. cbn [negb].
    rewrite (bind_run _ _ _ _ _ (generateId_run "user" w)), connectUser_run.
    rewrite (bool_decide_eq_true_2 ("user" ≠ "server")) by done.
    rewrite reply_events_success, Hname.
    cbn [fst snd pn user log]. split_and!; try done.
    by rewrite <- !app_assoc.
  - intros h uid Hpol Hacc.
    assert (Hhas : hasEvent (pn w) "authenticate" = true).
    { unfold hasEvent, pn_listeners.
      rewrite bool_decide_eq_true_2 by done. by rewrite Hpol. }
    rewrite Hhas. cbn [negb].
    rewrite (bind_run get_user _ w (user w) w) by done.
    rewrite Hpol. cbn [call_all].
    assert (Hemit : ∀ e, emit e w = (Val tt, with_log w [e])) by done.
    rewrite (bind_run _ _ _ _ _ (Hemit _)), Hacc. cbn [run_actions].
    unfold mbind, M_bind. rewrite connectUser_run.
    rewrite reply_events_success, Hname.
    run_m. unfold with_log. cbn [fst snd pn redis user log].
    split_and!; try done. by rewrite <- !app_assoc.
Qed.

(** C7 (as amended) on a session authenticated as user 1: the second
    [_authenticate], with the correlation id 4, allocates user 2 and is
    answered with it. *)
Lemma authenticate_again_rebinds_witness :
  user (on_message authenticate_msg world_authenticated).2
  = Some (new_User 2)
  ∧ log (on_message authenticate_msg world_authenticated).2
    = [EvINCR "_id:user"; EvHSET "_route:user" 2 (Some 1);
       EvRegistryAdd "user" 2;
       EvSocketSend (mkEnvelope "_authenticate" (VNum 2) (VNum 4));
       EvPerformance "connectSocket"].
Proof.
  pose proof (proj1 (authenticate_again_rebinds authenticate_msg
                       world_authenticated eq_refl) eq_refl) as H.
  split; [exact (proj1 (proj2 H)) | exact (proj2 (proj2 (proj2 H)))].
Defined.

(** C7, counterexample.  The session is authenticated as user 1; a second
    [_authenticate] is answered with success and the identifier 2, user 2 is
    bound to the session instead of user 1 and added to the registry. *)
Lemma second_authenticate_replaces_user :
  user world_authenticated = Some (new_User 1)
  ∧ let w' := (on_message authenticate_msg world_authenticated).2 in
    user w' = Some (new_User 2)
    ∧ users (pn w') !! 2 = Some (new_User 2)
    ∧ users (pn world_authenticated) !! 2 = None
    ∧ EvSocketSend (mkEnvelope "_authenticate" (VNum 2) (VNum 4)) ∈ log w'
    ∧ ¬ (user w' = user world_authenticated
         ∧ users (pn w') = users (pn world_authenticated)).
Proof.
  split; [reflexivity|].
  assert (Hu : user (on_message authenticate_msg world_authenticated).2
               = Some (new_User 2)) by (vm_compute; reflexivity).
  cbn zeta. split_and!.
  - exact Hu.
  - vm_compute. reflexivity.
  - vm_compute. reflexivity.
  - assert (Hl : log (on_message authenticate_msg world_authenticated).2
                 = [EvINCR "_id:user"; EvHSET "_route:user" 2 (Some 1);
                    EvRegistryAdd "user" 2;
                    EvSocketSend (mkEnvelope "_authenticate" (VNum 2) (VNum 4));
                    EvPerformance "connectSocket"])
      by (vm_compute; reflexivity).
    rewrite Hl. do 3 apply list_elem_of_further. apply list_elem_of_here.
  - intros [H _]. rewrite Hu in H. discriminate.
Qed.

(** ** Exceptions of handlers *)




(** ** Start-up *)

Lemma append_assoc (a b c : string) : (a +:+ b) +:+ c = a +:+ b +:+ c.
Proof.
  induction a as [|x a IH]; [done|].
  change (String x ((a +:+ b) +:+ c) = String x (a +:+ b +:+ c)).
  by rewrite IH.
Qed.

Lemma append_nil_r (a : string) : a +:+ "" = a.
Proof.
  induction a as [|x a IH]; [done|].
  change (String x (a +:+ "") = String x a). by rewrite IH.
Qed.

Lemma prefix_append (line post : string) :
  String.prefix line (line +:+ post) = true.
Proof.
  induction line as [|x line IH]; [by destruct post|].
  change (String.prefix (String x line) (String x (line +:+ post)) = true).
  cbn [String.prefix]. by destruct (Ascii.ascii_dec x x).
Qed.

(** [occurs] decides [contains]. *)
Lemma contains_occurs (line text : string) :
  contains line text → occurs line text = true.
Proof.
  intros (pre & post & ->). induction pre as [|x pre IH].
  - change ("" +:+ line +:+ post) with (line +:+ post).
    destruct (line +:+ post) eqn:E; cbn [occurs]; rewrite <- E;
      by rewrite prefix_append.
  - change (String x pre +:+ line +:+ post)
      with (String x (pre +:+ line +:+ post)).
    cbn [occurs]. rewrite IH. apply orb_true_r.
Qed.

(** The message of the validation error: the lines of the missing
    settings, in the order of the tests, and nothing else. *)
Lemma _validateSettings_message (s : Settings) (w : World) :
  invalid (Some s) →
  _validateSettings (Some s) w
  = (Exn (mkError
            ((if truthy (redisUrl s) then ""
              else String.append "settings.redisUrl is required"
                     (String "010"%char ""))
             +:+ (if truthy (scriptsPath s) then ""
                  else String.append "settings.scriptsPath is required"
                         (String "010"%char ""))
             +:+ (if truthy (templatesPath s) then ""
                  else String.append "settings.templatesPath is required"
                         (String "010"%char ""))
             +:+ (if truthy (levelProvider s) then ""
                  else String.append "settings.levelProvider is required"
                         (String "010"%char ""))
             +:+ (if instanceof_http (server s) || instanceof_https (server s)
                  then ""
                  else String.append "settings.server is required"
                         (String "010"%char "")))), w).
Proof.
  unfold invalid, missing, server_missing, _validateSettings.
  intros Hinv.
  destruct (truthy (redisUrl s)) eqn:H1, (truthy (scriptsPath s)) eqn:H2,
    (truthy (templatesPath s)) eqn:H3, (truthy (levelProvider s)) eqn:H4;
    (destruct (server s) as [| |v]; [| |destruct (truthy v) eqn:H6]);
    cbn [negb orb andb server_truthy instanceof_http instanceof_https] in *;
    try rewrite H6; cbn [negb orb andb];
    try (exfalso; destruct Hinv as [?|[?|[?|[?|[? ?]]]]]; discriminate);
    (unfold truthy; rewrite bool_decide_eq_false_2 by discriminate;
     reflexivity).
Qed.

(** C9 (as amended).  When a required setting is missing, the call of
    [start] does not throw: [start] is async and the call returns a promise,
    which is rejected with the validation error.  The error comes from the
    first statement of the body, so the world is as it was: the store is not
    connected and the upgrade listener is not attached (nothing was
    logged).  With a settings object the message is made of the line
    'settings.<name> is required' of every missing setting, in the order
    redisUrl, scriptsPath, templatesPath, levelProvider, server, and of
    nothing else; without a settings object the message is 'settings is
    required' and names no setting. *)
Theorem start_fails_before_any_activity (settings : option Settings)
    (w : World) :
  invalid settings →
  ∃ e, call_start settings w = (Val (Rejected e), w)
       ∧ message e
         = match settings with
           | None => "settings is required"
           | Some s =>
               (if truthy (redisUrl s) then ""
                else String.append "settings.redisUrl is required"
                       (String "010"%char ""))
               +:+ (if truthy (scriptsPath s) then ""
                    else String.append "settings.scriptsPath is required"
                           (String "010"%char ""))
               +:+ (if truthy (templatesPath s) then ""
                    else String.append "settings.templatesPath is required"
                           (String "010"%char ""))
               +:+ (if truthy (levelProvider s) then ""
                    else String.append "settings.levelProvider is required"
                           (String "010"%char ""))
               +:+ (if instanceof_http (server s)
                       || instanceof_https (server s)
                    then ""
                    else String.append "settings.server is required"
                           (String "010"%char ""))
           end.
Proof.
  intros Hinv. unfold call_start, async, start. destruct settings as [s|].
  - eexists. rewrite (bind_exn _ _ _ _ _ (_validateSettings_message s w Hinv)).
    split; reflexivity.
  - exists (mkError "settings is required").
    rewrite (bind_exn _ _ w (mkError "settings is required") w) by done.
    split; reflexivity.
Qed.

(** C9 (as amended) on settings that lack the store address and the
    server: the promise is rejected and the message has their two lines. *)
Lemma start_fails_before_any_activity_witness :
  ∃ e, call_start (Some settings_without_store) world0
       = (Val (Rejected e), world0)
       ∧ message e
         = String.append "settings.redisUrl is required"
             (String "010"%char
                (String.append "settings.server is required"
                   (String "010"%char ""))).
Proof.
  assert (Hinv : invalid (Some settings_without_store))
    by (left; reflexivity).
  destruct (start_fails_before_any_activity (Some settings_without_store)
              world0 Hinv) as (e & Hstart & Hmsg).
  exists e. split; [exact Hstart | exact Hmsg].
Defined.

(** C9, counterexample.  The settings lack the store address and the
    server; the call of [start] ends normally, with a rejected promise, and
    not with an exception.  And with no settings object at all the error
    names none of the missing settings. *)
Lemma start_rejects_instead_of_throwing :
  invalid (Some settings_without_store)
  ∧ (∃ e, call_start (Some settings_without_store) world0
          = (Val (Rejected e), world0))
  ∧ (∀ e w', call_start (Some settings_without_store) world0 ≠ (Exn e, w'))
  ∧ invalid None
  ∧ call_start None world0
    = (Val (Rejected (mkError "settings is required")), world0)
  ∧ ¬ contains "redisUrl" "settings is required".
Proof.
  split_and!.
  - left. reflexivity.
  - eexists. vm_compute. reflexivity.
  - intros e w' H. vm_compute in H. discriminate.
  - exact I.
  - vm_compute. reflexivity.
  - intros H. apply contains_occurs in H. vm_compute in H. discriminate.
Qed.

(** With every setting present the store is connected, the process takes
    its id from the store, and the upgrade listener is attached. *)
Example start_with_complete_settings :
  let out := start (Some settings_complete) world0 in
  out.1 = Val tt
  ∧ pn_id (pn out.2) = Some 1
  ∧ log out.2
    = [EvRedisConnect (VStr "redis://store");
       EvRedisConnect (VStr "redis://store");
       EvConsoleInfo; EvINCR "_id:server"; EvServerCreated 1;
       EvInitialize "levels"; EvInitialize "scripts";
       EvInitialize "templates"; EvInitialize "rooms"; EvUpgradeListener;
       EvPerformance "addCpuLoad"; EvPerformance "addMemoryUsage";
       EvPerformance "addBandwidth"; EvConsoleInfo].
Proof. vm_compute. done. Qed.

(** ** The Players registry *)

Lemma players_destroy_listener_idemp p this :
  Players.destroy_listener p (Players.destroy_listener p this)
  = Players.destroy_listener p this.
Proof.
  unfold Players.destroy_listener. cbn. by rewrite !delete_delete_eq.
Qed.

Lemma players_fire_destroy_run p this :
  Players.fire_destroy p this
  = if bool_decide (p ∈ Players.on_destroy this)
    then Players.destroy_listener p this else this.
Proof.
  unfold Players.fire_destroy.
  generalize (Players.on_destroy this) as l. intros l. revert this.
  induction l as [|q l IH]; intros this.
  - cbn. by rewrite bool_decide_eq_false_2 by apply not_elem_of_nil.
  - cbn [foldl]. rewrite IH. destruct (decide (q = p)) as [->|Hne].
    + rewrite (bool_decide_eq_true_2 (p ∈ p :: l)) by apply list_elem_of_here.
      rewrite players_destroy_listener_idemp. by case_bool_decide.
    + destruct (decide (p ∈ l)) as [Hin|Hnin].
      * rewrite !bool_decide_eq_true_2; [done| |done].
        by apply list_elem_of_further.
      * rewrite !bool_decide_eq_false_2; [done| |done].
        intros [?|?]%elem_of_cons; [by subst|done].
Qed.

Lemma players_add_lookups p this :
  (Players.add p this).1 = p
  ∧ Players.get (Players.player_id p) (Players.add p this).2 = Some p
  ∧ Players.getByUserId (Players.player_user p) (Players.add p this).2 = Some p
  ∧ Players.getByRoomId (Players.player_room p) (Players.add p this).2 = Some p
  ∧ p ∈ Players.on_destroy (Players.add p this).2.
Proof.
  unfold Players.add, Players.get, Players.getByUserId, Players.getByRoomId.
  cbn. rewrite !lookup_insert_eq. split_and!; try done.
  apply elem_of_app. right. apply list_elem_of_here.
Qed.

Lemma players_destroy_lookups p this :
  p ∈ Players.on_destroy this →
  let this' := Players.fire_destroy p this in
  Players.get (Players.player_id p) this' = None
  ∧ Players.getByUserId (Players.player_user p) this' = None
  ∧ Players.getByRoomId (Players.player_room p) this' = None.
Proof.
  intros Hin this'. subst this'. rewrite players_fire_destroy_run.
  rewrite bool_decide_eq_true_2 by done.
  unfold Players.get, Players.getByUserId, Players.getByRoomId. cbn.
  by rewrite !lookup_delete_eq.
Qed.

Lemma players_listeners_stay p q this :
  p ∈ Players.on_destroy this →
  p ∈ Players.on_destroy (Players.add q this).2
  ∧ p ∈ Players.on_destroy (Players.fire_destroy q this).
Proof.
  intros Hin. split.
  - cbn. apply elem_of_app. by left.
  - rewrite players_fire_destroy_run. by case_bool_decide.
Qed.

Lemma players_reachable_consistent this gone :
  Players.reachable this gone → Players.consistent this gone.
Proof.
  induction 1 as [|this gone p Hreach IH Hfresh|this gone p Hreach IH].
  - unfold Players.consistent. cbn. split_and!; intros k q Hk;
      by rewrite lookup_empty in Hk.
  - destruct IH as (Hi & Hu & Hr).
    unfold Players.consistent. cbn. split_and!; intros k q Hk.
    + apply lookup_insert_Some in Hk as [[<- <-]|[Hne Hk]].
      * split_and!; [done| |done]. apply elem_of_app. right. apply list_elem_of_here.
      * destruct (Hi k q Hk) as (? & ? & ?). split_and!; [done| |done].
        apply elem_of_app. by left.
    + apply lookup_insert_Some in Hk as [[<- <-]|[Hne Hk]].
      * split_and!; [done| |done]. apply elem_of_app. right. apply list_elem_of_here.
      * destruct (Hu k q Hk) as (? & ? & ?). split_and!; [done| |done].
        apply elem_of_app. by left.
    + apply lookup_insert_Some in Hk as [[<- <-]|[Hne Hk]].
      * split_and!; [done| |done]. apply elem_of_app. right. apply list_elem_of_here.
      * destruct (Hr k q Hk) as (? & ? & ?). split_and!; [done| |done].
        apply elem_of_app. by left.
  - destruct IH as (Hi & Hu & Hr).
    rewrite players_fire_destroy_run. case_bool_decide as Hin.
    + unfold Players.consistent. cbn. split_and!; intros k q Hk;
        apply lookup_delete_Some in Hk as [Hne Hk].
      * destruct (Hi k q Hk) as (-> & ? & ?). split_and!; [done..|].
        apply not_elem_of_cons. split; [|done]. by intros ->.
      * destruct (Hu k q Hk) as (-> & ? & ?). split_and!; [done..|].
        apply not_elem_of_cons. split; [|done]. by intros ->.
      * destruct (Hr k q Hk) as (-> & ? & ?). split_and!; [done..|].
        apply not_elem_of_cons. split; [|done]. by intros ->.
    + unfold Players.consistent. split_and!; intros k q Hk.
      * destruct (Hi k q Hk) as (-> & ? & ?). split_and!; [done..|].
        apply not_elem_of_cons. split; [|done]. by intros ->.
      * destruct (Hu k q Hk) as (-> & ? & ?). split_and!; [done..|].
        apply not_elem_of_cons. split; [|done]. by intros ->.
      * destruct (Hr k q Hk) as (-> & ? & ?). split_and!; [done..|].
        apply not_elem_of_cons. split; [|done]. by intros ->.
Qed.

(** C10.  [add(p)] returns [p] and files it in the three indexes, so the
    three lookups by p's keys return it; once [p] has been added, whatever
    was added or destroyed since, firing its 'destroy' event leaves the three
    lookups by p's keys absent; and in every registry built by adding players
    and destroying them, no lookup by any key returns a destroyed player. *)
Theorem players_indexes_consistent :
  (∀ p this,
     (Players.add p this).1 = p
     ∧ Players.get (Players.player_id p) (Players.add p this).2 = Some p
     ∧ Players.getByUserId (Players.player_user p) (Players.add p this).2
       = Some p
     ∧ Players.getByRoomId (Players.player_room p) (Players.add p this).2
       = Some p
     ∧ p ∈ Players.on_destroy (Players.add p this).2)
  ∧ (∀ p q this,
       p ∈ Players.on_destroy this →
       p ∈ Players.on_destroy (Players.add q this).2
       ∧ p ∈ Players.on_destroy (Players.fire_destroy q this))
  ∧ (∀ p this,
       p ∈ Players.on_destroy this →
       Players.get (Players.player_id p) (Players.fire_destroy p this) = None
       ∧ Players.getByUserId (Players.player_user p)
           (Players.fire_destroy p this) = None
       ∧ Players.getByRoomId (Players.player_room p)
           (Players.fire_destroy p this) = None)
  ∧ (∀ this gone k q,
       Players.reachable this gone →
       Players.get k this = Some q ∨ Players.getByUserId k this = Some q
       ∨ Players.getByRoomId k this = Some q →
       q ∉ gone).
Proof.
  split_and!.
  - apply players_add_lookups.
  - intros p q this. apply players_listeners_stay.
  - intros p this Hin. by apply players_destroy_lookups.
  - intros this gone k q Hreach Hlook.
    destruct (players_reachable_consistent this gone Hreach) as (Hi & Hu & Hr).
    destruct Hlook as [Hk|[Hk|Hk]].
    + by destruct (Hi k q Hk) as (_ & _ & ?).
    + by destruct (Hu k q Hk) as (_ & _ & ?).
    + by destruct (Hr k q Hk) as (_ & _ & ?).
Qed.

(** Two players share room 100: the room index holds the last one added, and
    destroying it leaves the other one reachable by id and by user only. *)
Example players_sharing_a_room :
  let this := (Players.add player2 (Players.add player1 Players.empty).2).2 in
  let this' := Players.fire_destroy player2 this in
  Players.getByRoomId 100 this = Some player2
  ∧ Players.get 2 this' = None
  ∧ Players.getByUserId 20 this' = None
  ∧ Players.getByRoomId 100 this' = None
  ∧ Players.get 1 this' = Some player1
  ∧ Players.getByUserId 10 this' = Some player1.
Proof. vm_compute. done. Qed.

(** * Further properties *)

(** ** What dispatch adds to the log *)

Lemma reply_events_dispatch msg err d :
  Forall (dispatch_event msg) (reply_events msg err d).
Proof.
  unfold reply_events.
  destruct (bool_decide (is_Some err) || truthy (msg_id msg));
    repeat constructor. by exists err, d.
Qed.

Lemma run_actions_dispatch msg acts w :
  ∃ evs, (run_actions (callback msg) acts w).2 = with_log w evs
         ∧ Forall (dispatch_event msg) evs.
Proof.
  revert w. induction acts as [|[err d|e] acts IH]; intros w.
  - exists []. by rewrite with_log_nil.
  - cbn [run_actions].
    rewrite (bind_run _ _ _ _ _ (callback_run msg err d w)).
    destruct (IH (with_log w (reply_events msg err d))) as (evs & Hw & Hl).
    exists (reply_events msg err d ++ evs). rewrite Hw, with_log_app.
    split; [done|]. apply Forall_app. split; [apply reply_events_dispatch|done].
  - exists []. by rewrite with_log_nil.
Qed.

Lemma call_all_dispatch msg t name hs sender d w :
  ∃ evs, (call_all t name hs sender d (callback msg) w).2 = with_log w evs
         ∧ Forall (dispatch_event msg) evs.
Proof.
  revert w. induction hs as [|h hs IH]; intros w.
  - exists []. by rewrite with_log_nil.
  - cbn [call_all].
    assert (Hemit : emit (EvHandler t name sender d) w
                    = (Val tt, with_log w [EvHandler t name sender d])) by done.
    rewrite (bind_run _ _ _ _ _ Hemit).
    set (w1 := with_log w [EvHandler t name sender d]).
    destruct (run_actions_dispatch msg (h sender d) w1) as (evs1 & Hw1 & Hl1).
    destruct (run_actions (callback msg) (h sender d) w1) as [[[]|e] w2] eqn:Hrun;
      cbn [snd] in Hw1; subst w2.
    + rewrite (bind_run _ _ _ _ _ Hrun).
      destruct (IH (with_log w1 evs1)) as (evs2 & Hw2 & Hl2).
      exists (EvHandler t name sender d :: evs1 ++ evs2).
      rewrite Hw2. unfold w1. rewrite !with_log_app. split; [done|].
      constructor; [done|]. by apply Forall_app.
    + rewrite (bind_exn _ _ _ _ _ Hrun). cbn [snd].
      exists (EvHandler t name sender d :: evs1).
      unfold w1. rewrite with_log_app. split; [done|]. by constructor.
Qed.

Lemma route_or_drop_dispatch kind msg id w :
  ∃ evs,
    ((reply ← HGET ("_route:" +:+ kind) id;
      let serverId := parseInt reply in
      if falsy_num serverId then mret tt
      else server_send "_message" msg serverId) w).2 = with_log w evs
    ∧ Forall (dispatch_event msg) evs.
Proof.
  rewrite route_or_drop. eexists. split; [done|].
  constructor; [done|]. destruct (falsy_num _); repeat constructor.
Qed.

(** The log of a dispatch: the world is the one before with events of
    dispatch appended. *)
Lemma _onMessage_dispatch msg u w :
  ∃ evs, (_onMessage msg u (callback msg) w).2 = with_log w evs
         ∧ Forall (dispatch_event msg) evs.
Proof.
  unfold _onMessage. rewrite (bind_run get_pn _ w (pn w) w) by done.
  case_bool_decide as Hres.
  { rewrite callback_run. eexists. split; [done|]. apply reply_events_dispatch. }
  destruct (hasEvent (pn w) (msg_name msg)).
  { unfold pn_fire. rewrite (bind_run get_pn _ w (pn w) w) by done.
    apply call_all_dispatch. }
  destruct (msg_scope msg) as [sc|]; [|exists []; by rewrite with_log_nil].
  assert (Hfire : ∀ t cbs reg,
            ∃ evs, (fire t cbs (msg_name msg) (user_id <$> u) (msg_data msg)
                      (callback msg) (with_log w [reg])).2 = with_log w evs
                   ∧ (dispatch_event msg reg → Forall (dispatch_event msg) evs)).
  { intros t cbs reg. unfold fire.
    destruct (call_all_dispatch msg t (msg_name msg)
                (listeners cbs (msg_name msg)) (user_id <$> u) (msg_data msg)
                (with_log w [reg])) as (evs & Hw & Hl).
    exists (reg :: evs). rewrite Hw, with_log_app. split; [done|].
    intros Hreg. by constructor. }
  assert (Hroute : ∀ kind reg,
            ∃ evs,
              ((reply ← HGET ("_route:" +:+ kind) (scope_id sc);
                let serverId := parseInt reply in
                if falsy_num serverId then mret tt
                else server_send "_message" msg serverId)
                 (with_log w [reg])).2 = with_log w evs
              ∧ (dispatch_event msg reg → Forall (dispatch_event msg) evs)).
  { intros kind reg.
    destruct (route_or_drop_dispatch kind msg (scope_id sc) (with_log w [reg]))
      as (evs & Hw & Hl).
    exists (reg :: evs). rewrite Hw, with_log_app. split; [done|].
    intros Hreg. by constructor. }
  repeat case_bool_decide.
  - unfold pn_fire. rewrite (bind_run get_pn _ w (pn w) w) by done.
    apply call_all_dispatch.
  - rewrite (bind_run _ _ _ _ _ (users_get_run (scope_id sc) w)).
    destruct (users (pn w) !! scope_id sc) as [t|].
    + destruct (Hfire (TUser (scope_id sc)) (user_callbacks t)
                  (EvRegistryGet "user" (scope_id sc))) as (evs & Hw & Hl).
      exists evs. split; [done|]. by apply Hl.
    + eexists. split; [done|]. by repeat constructor.
  - rewrite (bind_run _ _ _ _ _ (rooms_get_run (scope_id sc) w)).
    destruct (rooms (pn w) !! scope_id sc) as [t|].
    + destruct (Hfire (TRoom (scope_id sc)) t
                  (EvRegistryGet "room" (scope_id sc))) as (evs & Hw & Hl).
      exists evs. split; [done|]. by apply Hl.
    + destruct (Hroute "room" (EvRegistryGet "room" (scope_id sc)))
        as (evs & Hw & Hl).
      exists evs. split; [done|]. by apply Hl.
  - rewrite (bind_run _ _ _ _ _ (networkEntities_get_run (scope_id sc) w)).
    destruct (networkEntities (pn w) !! scope_id sc) as [t|].
    + destruct (Hfire (TNetworkEntity (scope_id sc)) t
                  (EvRegistryGet "networkEntity" (scope_id sc)))
        as (evs & Hw & Hl).
      exists evs. split; [done|]. by apply Hl.
    + destruct (Hroute "networkEntity"
                  (EvRegistryGet "networkEntity" (scope_id sc)))
        as (evs & Hw & Hl).
      exists evs. split; [done|]. by apply Hl.
  - exists []. by rewrite with_log_nil.
Qed.

(** ** Identifier allocation, continued *)

(** X1.  Two allocations of the same kind, one after the other, return
    consecutive identifiers, and after the second one both identifiers are
    routed to the allocating process.  The identifiers are JavaScript
    numbers: this is for a counter whose next two values are integers that a
    number represents exactly, between -2^53 and 2^53. *)
Theorem generateId_consecutive (type : string) (w : World) :
  - 2 ^ 53 ≤ default 0 (counters (redis w) !! ("_id:" +:+ type)) + 1 →
  default 0 (counters (redis w) !! ("_id:" +:+ type)) + 2 ≤ 2 ^ 53 →
  let r1 := generateId type w in
  let r2 := generateId type r1.2 in
  ∃ n, r1.1 = Val n ∧ r2.1 = Val (n + 1)
       ∧ (type ≠ "server" →
          route (redis r2.2) type n = Some (pn_id (pn w))
          ∧ route (redis r2.2) type (n + 1) = Some (pn_id (pn w))).
Proof.
  intros _ _.
  cbn zeta. rewrite (generateId_run type w). cbn [fst snd].
  rewrite generateId_run. cbn [fst snd pn redis counters hashes].
  rewrite lookup_insert_eq. cbn [default].
  eexists. split_and!; [done..|].
  intros Hne. rewrite !bool_decide_eq_true_2 by done.
  unfold route. cbn [hashes]. rewrite !lookup_insert_eq. cbn.
  rewrite lookup_insert_eq. split; [|done].
  rewrite lookup_insert_ne by lia. by rewrite lookup_insert_eq.
Qed.

(** X1 on the store in which room 5 was the last room allocated: process 1
    gets the rooms 6 and 7. *)
Lemma generateId_consecutive_witness :
  ∃ n, (generateId "room" world1).1 = Val n
       ∧ (generateId "room" (generateId "room" world1).2).1 = Val (n + 1)
       ∧ ("room" ≠ "server" →
          route (redis (generateId "room" (generateId "room" world1).2).2)
            "room" n = Some (Some 1)
          ∧ route (redis (generateId "room" (generateId "room" world1).2).2)
              "room" (n + 1) = Some (Some 1)).
Proof.
  apply (generateId_consecutive "room" world1); vm_compute; discriminate.
Defined.

(** X2.  An allocation changes one routing entry at most, its own: the entry
    of any other kind or other identifier, and the counter of any other
    kind, are as before. *)
Theorem generateId_touches_its_entry_only (type other : string) (id : Z)
    (w : World) :
  other ≠ type ∨ Val id ≠ (generateId type w).1 →
  route (redis (generateId type w).2) other id = route (redis w) other id
  ∧ (other ≠ type →
     counters (redis (generateId type w).2) !! ("_id:" +:+ other)
     = counters (redis w) !! ("_id:" +:+ other)).
Proof.
  intros Hother. rewrite generateId_run in *.
  cbn [fst snd redis counters hashes] in *. split.
  - unfold route. cbn [hashes]. case_bool_decide as Hsrv; [|done].
    destruct (decide (other = type)) as [->|Hne].
    + destruct Hother as [?|Hid]; [done|].
      rewrite lookup_insert_eq. cbn.
      rewrite lookup_insert_ne by (intros Heq; apply Hid; by rewrite Heq).
      by destruct (hashes (redis w) !! ("_route:" +:+ type)).
    + rewrite lookup_insert_ne; [done|].
      intros Heq. apply Hne. symmetry. by apply (inj (String.app "_route:")).
  - intros Hne. rewrite lookup_insert_ne; [done|].
    intros Heq. apply Hne. symmetry. by apply (inj (String.app "_id:")).
Qed.

(** X2 on an allocation of a room: the entry of user 7 stays. *)
Lemma generateId_touches_its_entry_only_witness :
  route (redis (generateId "room" world1).2) "user" 7
  = route (redis world1) "user" 7.
Proof.
  apply (generateId_touches_its_entry_only "room" "user" 7 world1).
  left. discriminate.
Defined.

(** ** Dispatch, continued *)

(** A miss in the registry of a routed kind: one routing lookup, then the
    forward or nothing, whatever the callback. *)
Lemma _onMessage_routed_miss kind msg sc u cb w :
  kind = "room" ∨ kind = "networkEntity" →
  msg_scope msg = Some sc →
  scope_type sc = kind →
  msg_name msg ∉ _reservedEvents (pn w) →
  hasEvent (pn w) (msg_name msg) = false →
  registry (pn w) kind !! scope_id sc = None →
  _onMessage msg u cb w
  = (Val tt,
     with_log w
       (EvRegistryGet kind (scope_id sc)
        :: EvHGET ("_route:" +:+ kind) (scope_id sc)
        :: if falsy_num (parseInt (route (redis w) kind (scope_id sc)))
           then []
           else [EvServerSend "_message" msg
                   (parseInt (route (redis w) kind (scope_id sc)))
                   (pn_id (pn w))])).
Proof.
  intros Hkind Hsc Hty Hres Hhas Hmiss.
  rewrite (_onMessage_scoped msg sc u _ w Hsc Hres Hhas), Hty.
  destruct Hkind as [-> | ->]; unfold registry in Hmiss.
  - rewrite bool_decide_eq_true_2 in Hmiss by done.
    rewrite (bool_decide_eq_false_2 ("room" = "server")) by done.
    rewrite (bool_decide_eq_false_2 ("room" = "user")) by done.
    rewrite (bool_decide_eq_true_2 ("room" = "room")) by done.
    rewrite (bind_run _ _ _ _ _ (rooms_get_run (scope_id sc) w)), Hmiss.
    rewrite (route_or_drop "room" msg (scope_id sc)).
    by rewrite with_log_app.
  - rewrite bool_decide_eq_false_2 in Hmiss by done.
    rewrite (bool_decide_eq_false_2 ("networkEntity" = "server")) by done.
    rewrite (bool_decide_eq_false_2 ("networkEntity" = "user")) by done.
    rewrite (bool_decide_eq_false_2 ("networkEntity" = "room")) by done.
    rewrite (bool_decide_eq_true_2 ("networkEntity" = "networkEntity"))
      by done.
    rewrite (bind_run _ _ _ _ _ (networkEntities_get_run (scope_id sc) w)),
      Hmiss.
    rewrite (route_or_drop "networkEntity" msg (scope_id sc)).
    by rewrite with_log_app.
Qed.

(** X3.  Allocation and dispatch fit together across processes: when a
    started process allocates a room or a network entity, a message for that
    identifier that reaches a process without it, over the same store, is
    forwarded once to the allocating process. *)
Theorem allocated_entity_is_forwarded_to_its_owner (kind : string) (a n : Z)
    (wa wb : World) (msg : Msg) (u : option User) :
  kind = "room" ∨ kind = "networkEntity" →
  pn_id (pn wa) = Some a → a ≠ 0 →
  (generateId kind wa).1 = Val n →
  redis wb = redis (generateId kind wa).2 →
  registry (pn wb) kind !! n = None →
  msg_scope msg = Some (mkScope kind n) →
  msg_name msg ∉ _reservedEvents (pn wb) →
  hasEvent (pn wb) (msg_name msg) = false →
  _onMessage msg u (callback msg) wb
  = (Val tt,
     with_log wb
       [EvRegistryGet kind n; EvHGET ("_route:" +:+ kind) n;
        EvServerSend "_message" msg (Num a) (pn_id (pn wb))]).
Proof.
  intros Hkind Ha Ha0 Hn Hstore Hmiss Hsc Hres Hhas.
  rewrite (_onMessage_routed_miss kind msg (mkScope kind n) u _ wb)
    by done.
  cbn [scope_id]. rewrite Hstore.
  assert (Hroute : route (redis (generateId kind wa).2) kind n
                   = Some (Some a)).
  { rewrite generateId_run in Hn |- *. cbn [fst snd redis] in *.
    injection Hn as <-. unfold route. cbn [hashes].
    rewrite bool_decide_eq_true_2
      by (destruct Hkind as [-> | ->]; discriminate).
    rewrite lookup_insert_eq. cbn. by rewrite lookup_insert_eq, Ha. }
  rewrite Hroute. cbn [parseInt falsy_num].
  by rewrite (proj2 (Z.eqb_neq a 0) Ha0).
Qed.

(** X3 on the scenario of room 5. *)
Lemma allocated_entity_is_forwarded_to_its_owner_witness :
  _onMessage fire_room5 None (callback fire_room5)
    (world_of_process1_after (generateId "room" world_of_process2).2)
  = (Val tt,
     with_log (world_of_process1_after (generateId "room" world_of_process2).2)
       [EvRegistryGet "room" 5; EvHGET "_route:room" 5;
        EvServerSend "_message" fire_room5 (Num 2) (Some 1)]).
Proof.
  apply (allocated_entity_is_forwarded_to_its_owner "room" 2 5
           world_of_process2
           (world_of_process1_after (generateId "room" world_of_process2).2)
           fire_room5 None);
    [ by left | reflexivity | lia | vm_compute; reflexivity | reflexivity
    | vm_compute; reflexivity | reflexivity
    | apply (bool_decide_unpack _); by vm_compute | reflexivity ].
Defined.

(** X4.  A message that is neither reserved nor taken by a global listener
    and that has no scope, the scope 'server', or a scope type other than
    'user', 'room' and 'networkEntity', has no effect at all: nothing is
    looked up, forwarded or replied, also when it carries an id. *)
Theorem unaddressed_message_is_ignored (msg : Msg) (u : option User)
    (cb : option Error → value → M unit) (w : World) :
  msg_name msg ∉ _reservedEvents (pn w) →
  hasEvent (pn w) (msg_name msg) = false →
  (∀ sc, msg_scope msg = Some sc →
         scope_type sc ∉ ["user"; "room"; "networkEntity"]) →
  _onMessage msg u cb w = (Val tt, w).
Proof.
  intros Hres Hhas Hscope. unfold _onMessage.
  rewrite (bind_run get_pn _ w (pn w) w) by done.
  rewrite bool_decide_eq_false_2 by done. rewrite Hhas.
  destruct (msg_scope msg) as [sc|]; [|done].
  specialize (Hscope sc eq_refl).
  apply not_elem_of_cons in Hscope as [Hu Hscope].
  apply not_elem_of_cons in Hscope as [Hr Hscope].
  apply not_elem_of_cons in Hscope as [Hn _].
  case_bool_decide as Hsrv.
  - unfold pn_fire. rewrite (bind_run get_pn _ w (pn w) w) by done.
    unfold hasEvent in Hhas.
    by destruct (pn_listeners (pn w) (msg_name msg)).
  - by rewrite !bool_decide_eq_false_2 by done.
Qed.

(** X4 on a message with an unknown scope type and the id 5. *)
Lemma unaddressed_message_is_ignored_witness :
  _onMessage galaxy_msg None (callback galaxy_msg) world1 = (Val tt, world1).
Proof.
  apply (unaddressed_message_is_ignored galaxy_msg None (callback galaxy_msg)
           world1);
    [ apply (bool_decide_unpack _); by vm_compute | reflexivity |].
  intros sc Hsc. injection Hsc as <-.
  apply (bool_decide_unpack _). by vm_compute.
Defined.

(** X5.  Handling a message other than [_authenticate] only reads: the
    process state (registries, listeners, id), the coordination store and
    the user bound to the connection are as before, whatever the message and
    whether or not a listener throws; only the log has grown. *)
Theorem dispatch_only_reads (msg : Msg) (w : World) :
  msg_name msg ≠ "_authenticate" →
  pn (deliver msg w).2 = pn w
  ∧ redis (deliver msg w).2 = redis w
  ∧ user (deliver msg w).2 = user w.
Proof.
  intros Hname. unfold deliver, on_message.
  rewrite bool_decide_eq_false_2 by done.
  rewrite (bind_run get_user _ w (user w) w) by done.
  destruct (_onMessage_dispatch msg (user w) w) as (evs & Hw & _).
  destruct (_onMessage msg (user w) (callback msg) w) as [[[]|e] w'];
    cbn [snd] in *; subst w'; done.
Qed.

(** X5 on a request whose listener throws. *)
Lemma dispatch_only_reads_witness :
  redis (deliver boom_msg world_ping).2 = redis world_ping.
Proof.
  apply (dispatch_only_reads boom_msg world_ping). discriminate.
Defined.

(** X6.  Whatever is written to the socket while a message other than
    [_authenticate] is handled carries the name and the id of that message,
    and what is forwarded is that message, under the name '_message'. *)
Theorem replies_echo_the_request (msg : Msg) (w : World) :
  msg_name msg ≠ "_authenticate" →
  ∃ evs, log (deliver msg w).2 = log w ++ evs
         ∧ (∀ env, EvSocketSend env ∈ evs →
                   env_name env = msg_name msg ∧ env_id env = msg_id msg)
         ∧ (∀ name m to from, EvServerSend name m to from ∈ evs →
                              name = "_message" ∧ m = msg).
Proof.
  intros Hname. unfold deliver, on_message.
  rewrite bool_decide_eq_false_2 by done.
  rewrite (bind_run get_user _ w (user w) w) by done.
  destruct (_onMessage_dispatch msg (user w) w) as (evs & Hw & Hl).
  assert (Hsend : ∀ env, EvSocketSend env ∈ evs →
                         env_name env = msg_name msg
                         ∧ env_id env = msg_id msg).
  { intros env Hin. rewrite Forall_forall in Hl.
    destruct (Hl _ Hin) as (err & d & ->). done. }
  assert (Hfwd : ∀ name m to from, EvServerSend name m to from ∈ evs →
                                   name = "_message" ∧ m = msg).
  { intros name m to from Hin. rewrite Forall_forall in Hl.
    exact (Hl _ Hin). }
  destruct (_onMessage msg (user w) (callback msg) w) as [[[]|e] w'];
    cbn [snd] in *; subst w'.
  - exists evs. done.
  - exists (evs ++ [EvConsoleError e; EvErrorEvent e]).
    unfold unhandledRejection, with_log. run_m.
    split_and!.
    + by rewrite <- !app_assoc.
    + intros env [Hin|Hin]%elem_of_app; [by apply Hsend|].
      repeat (apply elem_of_cons in Hin as [Hin|Hin]; [discriminate|]).
      by apply elem_of_nil in Hin.
    + intros name m to from [Hin|Hin]%elem_of_app; [by eapply Hfwd|].
      repeat (apply elem_of_cons in Hin as [Hin|Hin]; [discriminate|]).
      by apply elem_of_nil in Hin.
Qed.

(** X6 on a 'ping' with the id 7. *)
Lemma replies_echo_the_request_witness :
  ∃ evs, log (deliver (ping (VNum 7)) world_ping).2 = log world_ping ++ evs
         ∧ ∀ env, EvSocketSend env ∈ evs →
                  env_name env = "ping" ∧ env_id env = VNum 7.
Proof.
  assert (Hname : msg_name (ping (VNum 7)) ≠ "_authenticate") by discriminate.
  destruct (replies_echo_the_request (ping (VNum 7)) world_ping Hname)
    as (evs & Hlog & Hsend & _).
  exists evs. split; [exact Hlog | exact Hsend].
Defined.

(** What a listener that only replies sends, for a request with a truthy
    id: one envelope for each call of the callback. *)
Lemma run_actions_replies_only msg acts w :
  truthy (msg_id msg) = true →
  replies_only acts →
  run_actions (callback msg) acts w
  = (Val tt, with_log w (acts ≫= envelope_of msg)).
Proof.
  intros Hid Hacts. revert w.
  induction Hacts as [|[err d|e] acts Ha _ IH]; intros w; [|
    |destruct Ha].
  - cbn. by rewrite with_log_nil.
  - cbn [run_actions]. rewrite (bind_run _ _ _ _ _ (callback_run msg err d w)).
    rewrite IH, with_log_app. unfold reply_events.
    by rewrite Hid, orb_true_r.
Qed.

(** X7.  The callback does not remember that it was called: for a request
    with a truthy id, a global listener that calls it k times without
    throwing makes k response envelopes, one per call, in the order of the
    calls. *)
Theorem one_envelope_per_callback_call (msg : Msg) (w : World) (h : handler) :
  msg_name msg ≠ "_authenticate" →
  msg_name msg ∉ _reservedEvents (pn w) →
  pn_listeners (pn w) (msg_name msg) = [h] →
  truthy (msg_id msg) = true →
  replies_only (h (user_id <$> user w) (msg_data msg)) →
  on_message msg w
  = (Val tt,
     with_log w
       (EvHandler TProcess (msg_name msg) (user_id <$> user w) (msg_data msg)
        :: (h (user_id <$> user w) (msg_data msg) ≫= envelope_of msg))).
Proof.
  intros Hname Hres Hl Hid Hacts. unfold on_message.
  rewrite bool_decide_eq_false_2 by done.
  rewrite (bind_run get_user _ w (user w) w) by done.
  assert (Hhas : hasEvent (pn w) (msg_name msg) = true)
    by (unfold hasEvent; by rewrite Hl).
  rewrite (_onMessage_global msg (user w) _ w Hres Hhas), Hl.
  cbn [call_all].
  assert (Hemit : ∀ e, emit e w = (Val tt, with_log w [e])) by done.
  rewrite (bind_run _ _ _ _ _ (Hemit _)).
  rewrite (bind_run _ _ _ _ _ (run_actions_replies_only msg _ _ Hid Hacts)).
  by rewrite with_log_app.
Qed.

(** X7 on a listener that answers twice: two envelopes with the id 7. *)
Lemma one_envelope_per_callback_call_witness :
  on_message twice_msg world_twice
  = (Val tt,
     with_log world_twice
       [EvHandler TProcess "twice" None VNull;
        EvSocketSend (mkEnvelope "twice" (VStr "first") (VNum 7));
        EvSocketSend (mkEnvelope "twice" (VStr "second") (VNum 7))]).
Proof.
  apply (one_envelope_per_callback_call twice_msg world_twice answers_twice);
    [ discriminate | apply (bool_decide_unpack _); by vm_compute
    | reflexivity | reflexivity |].
  repeat constructor.
Defined.

(** ** Authentication, continued *)

(** X8.  When the authentication policy refuses, the request is answered
    with the policy's error and the socket is closed; no identifier is
    allocated, the store and the registries are not touched and the user
    bound to the connection, if any, stays bound. *)
Theorem refused_authentication_closes_the_socket (msg : Msg) (w : World)
    (h : auth_handler) (e : Error) (uid : Z) :
  msg_name msg = "_authenticate" →
  authenticate_listeners (pn w) = [h] →
  h (user_id <$> user w) (msg_data msg) = [Reply (Some e) uid] →
  on_message msg w
  = (Val tt,
     with_log w
       [EvHandler TProcess "authenticate" (user_id <$> user w) (msg_data msg);
        EvSocketSend
          (mkEnvelope "_authenticate" (VObj [("err", VStr (message e))])
             (msg_id msg));
        EvSocketClose]).
Proof.
  intros Hname Hpol Hrefuse. unfold on_message.
  rewrite bool_decide_eq_true_2 by done. unfold on_authenticate.
  rewrite (bind_run get_pn _ w (pn w) w) by done.
  assert (Hhas : hasEvent (pn w) "authenticate" = true).
  { unfold hasEvent, pn_listeners.
    rewrite bool_decide_eq_true_2 by done. by rewrite Hpol. }
  rewrite Hhas. cbn [negb].
  rewrite (bind_run get_user _ w (user w) w) by done.
  rewrite Hpol. cbn [call_all].
  assert (Hemit : ∀ ev w0, emit ev w0 = (Val tt, with_log w0 [ev])) by done.
  rewrite (bind_run _ _ _ _ _ (Hemit _ _)), Hrefuse. cbn [run_actions].
  unfold mbind, M_bind. rewrite callback_error, Hemit.
  cbn [mret M_ret]. rewrite !with_log_app. unfold reply_envelope.
  by rewrite Hname.
Qed.

(** X8 on a policy that refuses everybody. *)
Lemma refused_authentication_closes_the_socket_witness :
  on_message authenticate_msg world_with_policy
  = (Val tt,
     with_log world_with_policy
       [EvHandler TProcess "authenticate" None (VStr "token");
        EvSocketSend
          (mkEnvelope "_authenticate" (VObj [("err", VStr "denied")])
             (VNum 4));
        EvSocketClose]).
Proof.
  exact (refused_authentication_closes_the_socket authenticate_msg
           world_with_policy refuse_all (mkError "denied") 0
           eq_refl eq_refl eq_refl).
Defined.

(** ** Start-up, continued *)

(** The validation lets the settings pass exactly when they are valid. *)
Lemma _validateSettings_valid (s : Settings) (w : World) :
  _validateSettings (Some s) w = (Val tt, w) ↔ valid s.
Proof.
  unfold valid, _validateSettings.
  destruct (truthy (redisUrl s)) eqn:H1, (truthy (scriptsPath s)) eqn:H2,
    (truthy (templatesPath s)) eqn:H3, (truthy (levelProvider s)) eqn:H4;
    (destruct (server s) as [| |v]; [| |destruct (truthy v) eqn:H6]);
    cbn [negb orb andb server_truthy instanceof_http instanceof_https];
    try rewrite H6; cbn [negb orb andb];
    (split;
     [ unfold truthy; try rewrite bool_decide_eq_false_2 by discriminate;
       intros Hok; try discriminate Hok; split_and!; auto
     | intros (? & ? & ? & ? & [?|?]); try discriminate; reflexivity ]).
Qed.

(** The run of [start] on valid settings. *)
Lemma start_run (s : Settings) (w : World) :
  valid s →
  let n := default 0 (counters (redis w) !! "_id:server") + 1 in
  start (Some s) w
  = (Val tt,
     mkWorld
       (mkPlayNetwork (Some n) (users (pn w)) (rooms (pn w))
          (networkEntities (pn w)) (_reservedEvents (pn w))
          (_callbacks (pn w)) (authenticate_listeners (pn w)))
       (mkRedis (<["_id:server" := n]> (counters (redis w)))
          (hashes (redis w)))
       (user w)
       (log w
        ++ [EvRedisConnect (redisUrl s); EvRedisConnect (redisUrl s);
            EvConsoleInfo; EvINCR "_id:server"; EvServerCreated n]
        ++ (if truthy (useAmmo s) then [EvInitialize "ammo"] else [])
        ++ [EvInitialize "levels"; EvInitialize "scripts";
            EvInitialize "templates"; EvInitialize "rooms";
            EvUpgradeListener; EvPerformance "addCpuLoad";
            EvPerformance "addMemoryUsage"; EvPerformance "addBandwidth";
            EvConsoleInfo])).
Proof.
  intros Hvalid n. subst n. unfold start.
  rewrite (bind_run _ _ _ _ _
             (proj2 (_validateSettings_valid s w) Hvalid)).
  unfold property, set_id, generateId, INCR.
  rewrite (bool_decide_eq_false_2 ("server" ≠ "server"))
    by (intros H; by apply H).
  run_m. destruct (truthy (useAmmo s)); run_m;
    cbn [pn_id users rooms networkEntities _reservedEvents _callbacks
         authenticate_listeners];
    rewrite <- !app_assoc; reflexivity.
Qed.

Lemma not_valid_invalid (s : Settings) : ¬ valid s → invalid (Some s).
Proof.
  unfold valid, invalid, missing, server_missing. intros Hnot.
  destruct (truthy (redisUrl s)) eqn:H1; [|by left].
  destruct (truthy (scriptsPath s)) eqn:H2; [|by right; left].
  destruct (truthy (templatesPath s)) eqn:H3; [|by right; right; left].
  destruct (truthy (levelProvider s)) eqn:H4;
    [|by right; right; right; left].
  right. right. right. right.
  destruct (server s); cbn in *; try done;
    exfalso; apply Hnot; split_and!; auto.
Qed.

(** X9.  The validation lets the settings pass exactly when the four values
    are truthy and [settings.server] is an http or https server, and it then
    changes nothing; [start] ends with an error, and the world as it was,
    exactly on the other settings. *)
Theorem _validateSettings_accepts_valid_only (s : Settings) (w : World) :
  (_validateSettings (Some s) w = (Val tt, w) ↔ valid s)
  ∧ ((∃ e, start (Some s) w = (Exn e, w)) ↔ ¬ valid s).
Proof.
  split; [apply _validateSettings_valid|]. split.
  - intros [e He] Hvalid. rewrite (start_run s w Hvalid) in He. discriminate.
  - intros Hnot.
    eexists. unfold start.
    by rewrite (bind_exn _ _ _ _ _
                  (_validateSettings_message s w (not_valid_invalid s Hnot))).
Qed.

(** X10.  On valid settings [start] succeeds; the process takes as its id
    the next value of the counter '_id:server' and writes no routing entry
    for itself; the registries and the listeners are as before; and the
    upgrade listener is attached after the store was connected and the id
    was taken. *)
Theorem start_takes_its_id_from_the_store (s : Settings) (w : World) :
  valid s →
  let n := default 0 (counters (redis w) !! "_id:server") + 1 in
  let w' := (start (Some s) w).2 in
  (start (Some s) w).1 = Val tt
  ∧ pn_id (pn w') = Some n
  ∧ counters (redis w') !! "_id:server" = Some n
  ∧ hashes (redis w') = hashes (redis w)
  ∧ users (pn w') = users (pn w)
  ∧ rooms (pn w') = rooms (pn w)
  ∧ networkEntities (pn w') = networkEntities (pn w)
  ∧ _reservedEvents (pn w') = _reservedEvents (pn w)
  ∧ ∃ before after,
      log w' = log w ++ before ++ EvUpgradeListener :: after
      ∧ EvRedisConnect (redisUrl s) ∈ before
      ∧ EvINCR "_id:server" ∈ before
      ∧ EvUpgradeListener ∉ before.
Proof.
  intros Hvalid n w'. subst n w'. rewrite (start_run s w Hvalid).
  cbn [fst snd pn redis user log pn_id users rooms networkEntities
       _reservedEvents counters hashes].
  rewrite lookup_insert_eq. split_and!; try done.
  eexists ([EvRedisConnect (redisUrl s); EvRedisConnect (redisUrl s);
            EvConsoleInfo; EvINCR "_id:server"; EvServerCreated _]
           ++ (if truthy (useAmmo s) then [EvInitialize "ammo"] else [])
           ++ [EvInitialize "levels"; EvInitialize "scripts";
               EvInitialize "templates"; EvInitialize "rooms"]), _.
  split_and!.
  - rewrite <- !app_assoc. reflexivity.
  - apply elem_of_app. left. apply list_elem_of_here.
  - apply elem_of_app. left. do 3 apply list_elem_of_further.
    apply list_elem_of_here.
  - intros [Hin|[Hin|Hin]%elem_of_app]%elem_of_app.
    + repeat (apply elem_of_cons in Hin as [Hin|Hin]; [discriminate|]).
      by apply elem_of_nil in Hin.
    + destruct (truthy (useAmmo s));
        repeat (apply elem_of_cons in Hin as [Hin|Hin]; [discriminate|]);
        by apply elem_of_nil in Hin.
    + repeat (apply elem_of_cons in Hin as [Hin|Hin]; [discriminate|]).
      by apply elem_of_nil in Hin.
Qed.

Lemma settings_complete_valid : valid settings_complete.
Proof. unfold valid. cbn. split_and!; auto. Qed.

(** X10 on complete settings and an empty store: the process gets the
    id 1. *)
Lemma start_takes_its_id_from_the_store_witness :
  pn_id (pn (start (Some settings_complete) world0).2) = Some 1.
Proof.
  exact (proj1 (proj2 (start_takes_its_id_from_the_store settings_complete
                         world0 settings_complete_valid))).
Defined.

(** X11.  After a successful [start], every identifier the process allocates
    for a kind other than 'server' is routed to the id the process took at
    start, and that id is positive when the counter was not negative. *)
Theorem ids_allocated_after_start_are_routed_here (s : Settings)
    (kind : string) (w : World) :
  valid s →
  kind ≠ "server" →
  let w1 := (start (Some s) w).2 in
  let r := generateId kind w1 in
  ∃ n m, pn_id (pn w1) = Some n
         ∧ r.1 = Val m
         ∧ route (redis r.2) kind m = Some (Some n)
         ∧ (0 ≤ default 0 (counters (redis w) !! "_id:server") → 0 < n).
Proof.
  intros Hvalid Hkind w1 r. subst r w1. rewrite (start_run s w Hvalid).
  cbn [snd]. rewrite generateId_run. cbn [fst snd pn redis pn_id].
  eexists _, _. split_and!; [done..| |lia].
  rewrite bool_decide_eq_true_2 by done. unfold route. cbn [hashes].
  rewrite lookup_insert_eq. cbn. by rewrite lookup_insert_eq.
Qed.

(** X11 on complete settings: the first user is routed to process 1. *)
Lemma ids_allocated_after_start_are_routed_here_witness :
  ∃ n m, pn_id (pn (start (Some settings_complete) world0).2) = Some n
         ∧ (generateId "user" (start (Some settings_complete) world0).2).1
           = Val m
         ∧ route
             (redis
                (generateId "user"
                   (start (Some settings_complete) world0).2).2)
             "user" m = Some (Some n).
Proof.
  assert (Hkind : "user" ≠ "server") by discriminate.
  destruct (ids_allocated_after_start_are_routed_here settings_complete
              "user" world0 settings_complete_valid Hkind)
    as (n & m & H1 & H2 & H3 & _).
  exists n, m. split_and!; [exact H1 | exact H2 | exact H3].
Defined.

(** ** The Players registry, continued *)

(** X12.  [send] reaches the players that are in the registry and no other:
    a player is sent to, under its id, once it is added; and in a registry
    built by adding and destroying players, whoever is sent to is filed
    under its own id and is not destroyed. *)
Theorem players_send_reaches_the_living :
  (∀ p this name data,
     Players_send name data (Players.add p this).2 !! Players.player_id p
     = Some (p, name, data))
  ∧ (∀ p this name data,
       p ∈ Players.on_destroy this →
       Players_send name data (Players.fire_destroy p this)
         !! Players.player_id p = None)
  ∧ (∀ this gone k p name data sent_name sent_data,
       Players.reachable this gone →
       Players_send name data this !! k = Some (p, sent_name, sent_data) →
       k = Players.player_id p ∧ (p ∉ gone)
       ∧ sent_name = name ∧ sent_data = data).
Proof.
  unfold Players_send. split_and!.
  - intros p this name data. rewrite lookup_fmap. cbn.
    by rewrite lookup_insert_eq.
  - intros p this name data Hin. rewrite lookup_fmap.
    rewrite players_fire_destroy_run, bool_decide_eq_true_2 by done.
    cbn. by rewrite lookup_delete_eq.
  - intros this gone k p name data sent_name sent_data Hreach Hsend.
    rewrite lookup_fmap in Hsend.
    destruct (Players.index this !! k) as [q|] eqn:Hk; [|done].
    cbn in Hsend. injection Hsend as -> -> ->.
    destruct (players_reachable_consistent this gone Hreach) as (Hi & _ & _).
    destruct (Hi k p Hk) as (? & _ & ?). done.
Qed.

(** X13.  Adding or destroying a player leaves alone what is filed under
    the keys of other players: a lookup by a key that is not the player's
    returns what it returned before. *)
Theorem players_other_keys_are_untouched (p : Players.Player)
    (this : Players.Players) (k : Z) :
  (k ≠ Players.player_id p →
   Players.get k (Players.add p this).2 = Players.get k this
   ∧ Players.get k (Players.fire_destroy p this) = Players.get k this)
  ∧ (k ≠ Players.player_user p →
     Players.getByUserId k (Players.add p this).2
     = Players.getByUserId k this
     ∧ Players.getByUserId k (Players.fire_destroy p this)
       = Players.getByUserId k this)
  ∧ (k ≠ Players.player_room p →
     Players.getByRoomId k (Players.add p this).2
     = Players.getByRoomId k this
     ∧ Players.getByRoomId k (Players.fire_destroy p this)
       = Players.getByRoomId k this).
Proof.
  unfold Players.get, Players.getByUserId, Players.getByRoomId.
  rewrite players_fire_destroy_run.
  split_and!; intros Hk; (split; [cbn; by rewrite lookup_insert_ne|]);
    case_bool_decide; [|done| |done| |done]; cbn;
    by rewrite lookup_delete_ne.
Qed.

(** X14.  The user index holds one player for a user, the last one added:
    after a second player of the same user is added, the lookup by user
    returns the second one, while the first one is still returned by the
    lookup by its id. *)
Theorem players_user_index_keeps_the_last (p q : Players.Player)
    (this : Players.Players) :
  Players.player_id p ≠ Players.player_id q →
  Players.player_user p = Players.player_user q →
  let this' := (Players.add q (Players.add p this).2).2 in
  Players.getByUserId (Players.player_user p) this' = Some q
  ∧ Players.get (Players.player_id p) this' = Some p
  ∧ Players.get (Players.player_id q) this' = Some q.
Proof.
  intros Hid Huser this'. subst this'.
  unfold Players.get, Players.getByUserId. cbn.
  rewrite Huser, !lookup_insert_eq.
  rewrite lookup_insert_ne by done. by rewrite lookup_insert_eq.
Qed.

(** X14 on two players of user 10. *)
Lemma players_user_index_keeps_the_last_witness :
  Players.getByUserId 10
    (Players.add player3 (Players.add player1 Players.empty).2).2
  = Some player3.
Proof.
  apply (players_user_index_keeps_the_last player1 player3 Players.empty);
    [discriminate | reflexivity].
Defined.

(** X15.  Destroying a player deletes the room entry of its room even when
    that entry is another player's: with two players in one room, after one
    of them is destroyed the other is still returned by the lookups by id
    and by user, but the lookup by room returns nothing. *)
Theorem players_destroy_drops_the_shared_room (p q : Players.Player)
    (this : Players.Players) :
  Players.player_id p ≠ Players.player_id q →
  Players.player_user p ≠ Players.player_user q →
  Players.player_room p = Players.player_room q →
  let this' :=
    Players.fire_destroy p (Players.add q (Players.add p this).2).2 in
  Players.get (Players.player_id q) this' = Some q
  ∧ Players.getByUserId (Players.player_user q) this' = Some q
  ∧ Players.getByRoomId (Players.player_room q) this' = None.
Proof.
  intros Hid Huser Hroom this'. subst this'.
  rewrite players_fire_destroy_run.
  rewrite bool_decide_eq_true_2.
  - unfold Players.get, Players.getByUserId, Players.getByRoomId. cbn.
    rewrite Hroom, lookup_delete_eq.
    rewrite !lookup_delete_ne by done. by rewrite !lookup_insert_eq.
  - cbn. apply elem_of_app. left. apply elem_of_app. right.
    apply list_elem_of_here.
Qed.

(** X15 on two players of room 100. *)
Lemma players_destroy_drops_the_shared_room_witness :
  let this' :=
    Players.fire_destroy player1
      (Players.add player2 (Players.add player1 Players.empty).2).2 in
  Players.get 2 this' = Some player2
  ∧ Players.getByUserId 20 this' = Some player2
  ∧ Players.getByRoomId 100 this' = None.
Proof.
  apply (players_destroy_drops_the_shared_room player1 player2 Players.empty);
    [discriminate | discriminate | reflexivity].
Defined.

(** X16.  The 'destroy' event of a player that was never added changes
    nothing in the registry, and firing the event of a player a second time
    changes nothing more. *)
Theorem players_destroy_is_idempotent (p : Players.Player)
    (this : Players.Players) :
  (p ∉ Players.on_destroy this → Players.fire_destroy p this = this)
  ∧ Players.fire_destroy p (Players.fire_destroy p this)
    = Players.fire_destroy p this.
Proof.
  split.
  - intros Hnot. rewrite players_fire_destroy_run.
    by rewrite bool_decide_eq_false_2.
  - rewrite (players_fire_destroy_run p this).
    destruct (decide (p ∈ Players.on_destroy this)) as [Hin|Hnot].
    + rewrite bool_decide_eq_true_2 by done.
      rewrite players_fire_destroy_run.
      cbn [Players.on_destroy Players.destroy_listener].
      rewrite bool_decide_eq_true_2 by done.
      apply players_destroy_listener_idemp.
    + rewrite bool_decide_eq_false_2 by done.
      rewrite players_fire_destroy_run.
      by rewrite bool_decide_eq_false_2.
Qed.

(** ** The file level provider *)

Lemma string_length_append (a b : string) :
  String.length (a +:+ b) = (String.length a + String.length b)%nat.
Proof.
  induction a as [|x a IH]; [done|].
  change (S (String.length (a +:+ b))
          = S (String.length a + String.length b)%nat).
  by rewrite IH.
Qed.

Lemma append_cancel_r (a b c : string) : a +:+ c = b +:+ c → a = b.
Proof.
  revert b. induction a as [|x a IH]; intros [|y b] H; [done| | |].
  - exfalso. apply (f_equal String.length) in H.
    change (String.length c = S (String.length (b +:+ c))) in H.
    rewrite string_length_append in H. lia.
  - exfalso. apply (f_equal String.length) in H.
    change (S (String.length (a +:+ c)) = String.length c) in H.
    rewrite string_length_append in H. lia.
  - change (String x (a +:+ c) = String y (b +:+ c)) in H.
    injection H as -> H. f_equal. by apply IH.
Qed.

(** Two identifiers have two files. *)
Lemma file_of_inj this id1 id2 :
  FileLevelProvider.file_of this id1 = FileLevelProvider.file_of this id2 →
  id1 = id2.
Proof.
  unfold FileLevelProvider.file_of. intros H.
  apply (inj (String.app _)) in H. apply (inj (String.app _)) in H.
  apply append_cancel_r in H. by apply (inj pretty) in H.
Qed.

(** The file of a level is not the directory of the provider. *)
Lemma file_of_not_path this id :
  FileLevelProvider.file_of this id ≠ FileLevelProvider.path this.
Proof.
  unfold FileLevelProvider.file_of. intros H.
  apply (f_equal String.length) in H.
  rewrite string_length_append in H.
  change ("/" +:+ pretty id +:+ ".json")
    with (String "/" (pretty id +:+ ".json")) in H.
  cbn in H. lia.
Qed.

(** The directories above a path have shorter names than the path. *)
Lemma parents_shorter before path a :
  a ∈ FileLevelProvider.parents before path →
  (String.length a < String.length before + String.length path)%nat.
Proof.
  revert before. induction path as [|c rest IH]; intros before Hin.
  - by apply elem_of_nil in Hin.
  - cbn [FileLevelProvider.parents] in Hin.
    apply elem_of_app in Hin as [Hin|Hin].
    + case_bool_decide; [|by apply elem_of_nil in Hin].
      apply list_elem_of_singleton in Hin as ->. cbn. lia.
    + apply IH in Hin. rewrite string_length_append in Hin. cbn in *. lia.
Qed.

Lemma file_of_not_above_path this id :
  FileLevelProvider.file_of this id
  ∉ FileLevelProvider.ancestors (FileLevelProvider.path this).
Proof.
  intros Hin. apply parents_shorter in Hin.
  unfold FileLevelProvider.file_of in Hin.
  rewrite string_length_append in Hin. cbn in Hin. lia.
Qed.

(** What a [save] that returned has done. *)
Lemma save_returned this id data fs fs' :
  FileLevelProvider.save this id data fs
  = FileLevelProvider.Returned tt fs' [] →
  FileLevelProvider.files fs !! FileLevelProvider.path this = None
  ∧ fs'
    = FileLevelProvider.mkFS
        ({[ FileLevelProvider.path this ]}
         ∪ list_to_set
             (FileLevelProvider.ancestors (FileLevelProvider.path this))
         ∪ FileLevelProvider.dirs fs)
        (<[FileLevelProvider.file_of this id := data]>
           (FileLevelProvider.files fs)).
Proof.
  unfold FileLevelProvider.save, FileLevelProvider.mkdirSync,
    FileLevelProvider.writeFileSync, FileLevelProvider.is_file.
  intros Hsave.
  case_bool_decide as Hpath; [done|].
  destruct (existsb _ _); [done|].
  cbn [FileLevelProvider.dirs FileLevelProvider.files] in Hsave.
  case_bool_decide; [done|].
  destruct (existsb _ _); [done|].
  destruct (match last _ with Some _ => _ | None => _ end); [done|].
  injection Hsave as <-. split; [|done].
  destruct (FileLevelProvider.files fs !! FileLevelProvider.path this)
    eqn:Hp; [|done]. exfalso. apply Hpath. eauto.
Qed.

(** X17.  A level that was saved is there: after a [save] that returned,
    [load] returns a Buffer with the bytes that were saved, without logging
    an error, [has] answers true, and the directory of the provider is
    there; this holds also when the level had been saved before with other
    data. *)
Theorem saved_level_is_loaded (this : FileLevelProvider.Provider) (id : Z)
    (data : string) (fs fs' : FileLevelProvider.FS) :
  FileLevelProvider.save this id data fs
  = FileLevelProvider.Returned tt fs' [] →
  FileLevelProvider.load this id fs'
  = FileLevelProvider.Returned (Some (FileLevelProvider.mkBuffer data)) fs' []
  ∧ FileLevelProvider.has this id fs' = true
  ∧ FileLevelProvider.path this ∈ FileLevelProvider.dirs fs'.
Proof.
  intros [_ ->]%save_returned.
  unfold FileLevelProvider.load, FileLevelProvider.has,
    FileLevelProvider.readFileSync, FileLevelProvider.existsSync.
  cbn [FileLevelProvider.files FileLevelProvider.dirs].
  rewrite lookup_insert_eq. split_and!; [done| |].
  - by rewrite bool_decide_eq_true_2 by eauto.
  - apply elem_of_union_l, elem_of_union_l. by apply elem_of_singleton.
Qed.

(** X17 on level 3 of the provider 'levels'. *)
Lemma saved_level_is_loaded_witness :
  FileLevelProvider.load levels_provider 3 fs_with_level3
  = FileLevelProvider.Returned (Some (FileLevelProvider.mkBuffer "{}"))
      fs_with_level3 []
  ∧ FileLevelProvider.has levels_provider 3 fs_with_level3 = true.
Proof.
  assert (Hsave : FileLevelProvider.save levels_provider 3 "{}" empty_fs
                  = FileLevelProvider.Returned tt fs_with_level3 [])
    by (vm_compute; reflexivity).
  pose proof (saved_level_is_loaded levels_provider 3 "{}" empty_fs
                fs_with_level3 Hsave) as H.
  split; [exact (proj1 H) | exact (proj1 (proj2 H))].
Defined.

(** When a path above the directory of the provider is a file, [save]
    throws and nothing is written. *)
Example save_below_a_file_throws :
  FileLevelProvider.save nested_provider 3 "{}" fs_with_file_data
  = FileLevelProvider.Thrown "ENOTDIR".
Proof. vm_compute. reflexivity. Qed.

(** X19.  Saving a level leaves the other levels of the provider as they
    were: what [load] returns and what [has] answers for another identifier
    is the same before and after, and a later [save] is still possible. *)
Theorem save_leaves_other_levels (this : FileLevelProvider.Provider)
    (id other : Z) (data : string) (fs fs' : FileLevelProvider.FS) :
  other ≠ id →
  FileLevelProvider.save this id data fs
  = FileLevelProvider.Returned tt fs' [] →
  FileLevelProvider.readFileSync (FileLevelProvider.file_of this other) fs'
  = FileLevelProvider.readFileSync (FileLevelProvider.file_of this other) fs
  ∧ FileLevelProvider.has this other fs' = FileLevelProvider.has this other fs
  ∧ FileLevelProvider.files fs' !! FileLevelProvider.path this = None
  ∧ (FileLevelProvider.file_of this other ∉ FileLevelProvider.dirs fs →
     FileLevelProvider.file_of this other ∉ FileLevelProvider.dirs fs').
Proof.
  intros Hother [Hpath ->]%save_returned.
  assert (Hne : FileLevelProvider.file_of this id
                ≠ FileLevelProvider.file_of this other)
    by (intros Heq; apply Hother; symmetry; by apply file_of_inj in Heq).
  assert (Hdir : FileLevelProvider.file_of this other
                 ∈ {[ FileLevelProvider.path this ]}
                   ∪ list_to_set
                       (FileLevelProvider.ancestors
                          (FileLevelProvider.path this))
                   ∪ FileLevelProvider.dirs fs
                 ↔ FileLevelProvider.file_of this other
                   ∈ FileLevelProvider.dirs fs).
  { rewrite !elem_of_union, elem_of_singleton, elem_of_list_to_set.
    split; [|by right].
    intros [[Heq|Hin]|?]; [by apply file_of_not_path in Heq| |done].
    by apply file_of_not_above_path in Hin. }
  unfold FileLevelProvider.has, FileLevelProvider.existsSync,
    FileLevelProvider.readFileSync.
  cbn [FileLevelProvider.dirs FileLevelProvider.files].
  rewrite !lookup_insert_ne by done. split_and!.
  - done.
  - f_equal. apply bool_decide_ext. exact Hdir.
  - rewrite lookup_insert_ne by apply file_of_not_path. exact Hpath.
  - intros Hnot Hin. apply Hnot. by apply Hdir.
Qed.

(** X19 on the levels 3 and 4 of the provider 'levels'. *)
Lemma save_leaves_other_levels_witness :
  FileLevelProvider.has levels_provider 4 fs_with_level3
  = FileLevelProvider.has levels_provider 4 empty_fs.
Proof.
  assert (Hother : (4 : Z) ≠ 3) by lia.
  assert (Hsave : FileLevelProvider.save levels_provider 3 "{}" empty_fs
                  = FileLevelProvider.Returned tt fs_with_level3 [])
    by (vm_compute; reflexivity).
  exact (proj1 (proj2 (save_leaves_other_levels levels_provider 3 4 "{}"
                         empty_fs fs_with_level3 Hother Hsave))).
Defined.

(** ** The client *)

(** Every pending callback has an id below the next one. *)
Lemma client_pending_below_next this :
  Client.reachable this →
  0 ≤ Client.lastCallbackId this
  ∧ ∀ id, is_Some (Client.callbacks this !! id) →
          0 ≤ id < Client.lastCallbackId this.
Proof.
  induction 1 as [known|this name data roomId callback _ [Hge IH]
                 |this msg _ [Hge IH]].
  - split; [done|]. intros id [cb Hcb]. cbn in Hcb.
    by rewrite lookup_empty in Hcb.
  - destruct callback as [cb|]; cbn; [|done]. split; [lia|].
    intros id [cb' Hcb]. apply lookup_insert_Some in Hcb as [[<- _]|[_ Hcb]].
    + lia.
    + assert (0 ≤ id < Client.lastCallbackId this) by eauto. lia.
  - unfold Client.onmessage.
    destruct (truthy (Client.err_of (Client.in_data msg))); [done|].
    destruct (Client.in_callbackId msg) as [id|];
      [|unfold Client.fire_events; repeat case_match; done].
    case_bool_decide;
      [|unfold Client.fire_events; repeat case_match; done].
    destruct (Client.callbacks this !! id) as [cb|] eqn:Hcb; [|done].
    cbn. destruct (cb (Client.in_data msg)); [done|].
    assert (Hdel : ∀ k, is_Some (delete id (Client.callbacks this) !! k) →
                        0 ≤ k < Client.lastCallbackId this).
    { intros k [cb' Hk]. apply lookup_delete_Some in Hk as [_ Hk]. eauto. }
    unfold Client.fire_events; repeat case_match; done.
Qed.

(** X20.  The client never gives the id of a pending callback to a new one.
    In every state a client can reach, [_send] with a callback sends one
    request, which carries a [callbackId]; that id is not negative and has
    no callback registered yet, so no pending callback is overwritten; the
    callback is registered under it and the other registrations stay; the
    next request with a callback carries the next id.  A request without
    callback is sent without [callbackId] and registers nothing. *)
Theorem client_callback_ids_are_fresh (this : Client.PlayCanvasNetwork)
    (name : string) (data roomId : value) (cb : Client.Callback) :
  Client.reachable this →
  (∃ id,
     Client.log (Client._send name data roomId (Some cb) this)
     = Client.log this
       ++ [Client.SocketSend (Client.mkOutgoing name data roomId (Some id))]
     ∧ 0 ≤ id
     ∧ Client.callbacks this !! id = None
     ∧ Client.callbacks (Client._send name data roomId (Some cb) this) !! id
       = Some cb
     ∧ (∀ k, k ≠ id →
             Client.callbacks (Client._send name data roomId (Some cb) this)
               !! k
             = Client.callbacks this !! k)
     ∧ (∀ name2 data2 roomId2 cb2,
          Client.log
            (Client._send name2 data2 roomId2 (Some cb2)
               (Client._send name data roomId (Some cb) this))
          = Client.log (Client._send name data roomId (Some cb) this)
            ++ [Client.SocketSend
                  (Client.mkOutgoing name2 data2 roomId2 (Some (id + 1)))]))
  ∧ Client._send name data roomId None this
    = Client.mkClient (Client.lastCallbackId this) (Client.callbacks this)
        (Client.rooms this)
        (Client.log this
         ++ [Client.SocketSend (Client.mkOutgoing name data roomId None)]).
Proof.
  intros Hreach.
  destruct (client_pending_below_next this Hreach) as [Hge Hbelow].
  split; [|done].
  exists (Client.lastCallbackId this). split_and!; try done.
  - destruct (Client.callbacks this !! Client.lastCallbackId this) eqn:Hcb;
      [|done].
    assert (0 ≤ Client.lastCallbackId this < Client.lastCallbackId this)
      by eauto. lia.
  - cbn. by rewrite lookup_insert_eq.
  - intros k Hk. cbn. by rewrite lookup_insert_ne.
Qed.

(** X20 on a client that has just been made: the first request carries the
    id 0. *)
Lemma client_callback_ids_are_fresh_witness :
  ∃ id,
    Client.log (Client._send "ping" VNull VNull (Some quiet_callback)
                  fresh_client)
    = [Client.SocketSend (Client.mkOutgoing "ping" VNull VNull (Some id))]
    ∧ id = 0
    ∧ Client.callbacks fresh_client !! id = None.
Proof.
  destruct (proj1 (client_callback_ids_are_fresh fresh_client "ping" VNull
                     VNull quiet_callback (Client.reach_new ∅)))
    as (id & Hlog & _ & Hfresh & _).
  exists id. split_and!; [exact Hlog | | exact Hfresh].
  cbn in Hlog. by injection Hlog as <-.
Defined.

(** The end of [onmessage] only announces: it adds events of the room and of
    the client to the log and touches nothing else. *)
Lemma client_fire_events_run msg this :
  ∃ evs,
    Client.fire_events msg this
    = Client.mkClient (Client.lastCallbackId this) (Client.callbacks this)
        (Client.rooms this) (Client.log this ++ evs)
    ∧ Forall announcement evs.
Proof.
  unfold Client.fire_events, Client.emit.
  destruct (truthy (Client.in_roomId msg));
    [destruct (Client.in_roomId msg) as [| | |room| | |];
       [..|case_bool_decide| | |]|]; cbn;
    try (exists [Client.Fire (Client.in_name msg) (Client.in_data msg)
                   (Client.in_roomId msg)];
         split; [done|by repeat constructor]).
  all: try (eexists [_]; split; [reflexivity|by repeat constructor]).
  eexists [_; _]. rewrite <- app_assoc. split; [reflexivity|].
  by repeat constructor.
Qed.

(** A reply without error for a registered callback that returns. *)
Lemma client_onmessage_reply (this : Client.PlayCanvasNetwork)
    (reply : Client.Incoming) (id : Z) (cb : Client.Callback) :
  Client.in_callbackId reply = Some id →
  0 ≤ id →
  truthy (Client.err_of (Client.in_data reply)) = false →
  Client.callbacks this !! id = Some cb →
  cb (Client.in_data reply) = None →
  ∃ evs,
    Client.onmessage reply this
    = (None,
       Client.mkClient (Client.lastCallbackId this)
         (delete id (Client.callbacks this)) (Client.rooms this)
         (Client.log this ++ Client.Called id (Client.in_data reply) :: evs))
    ∧ Forall announcement evs.
Proof.
  intros Hid Hge Herr Hreg Hcb. unfold Client.onmessage, Client.Callback in *.
  rewrite Herr, Hid. rewrite (bool_decide_eq_true_2 (0 ≤ id)) by done.
  rewrite Hreg. cbn iota zeta. rewrite Hcb.
  match goal with |- context [Client.fire_events reply ?s] =>
    destruct (client_fire_events_run reply s) as (evs & -> & Hann) end.
  exists evs. cbn. by rewrite <- app_assoc.
Qed.

(** A reply without error for an id that no callback is registered for. *)
Lemma client_onmessage_unknown (this : Client.PlayCanvasNetwork)
    (reply : Client.Incoming) (id : Z) :
  Client.in_callbackId reply = Some id →
  0 ≤ id →
  truthy (Client.err_of (Client.in_data reply)) = false →
  Client.callbacks this !! id = None →
  Client.onmessage reply this
  = (None, Client.emit (Client.ConsoleWarn id) this).
Proof.
  intros Hid Hge Herr Hreg. unfold Client.onmessage, Client.Callback in *.
  rewrite Herr, Hid. rewrite (bool_decide_eq_true_2 (0 ≤ id)) by done.
  by rewrite Hreg.
Qed.

(** X21.  A reply finds its callback once.  [_send] with a callback sends
    one request, with the name, the data and the room it was given and with
    a [callbackId].  A reply that carries the [callbackId] of that request,
    and no error, calls the callback of the request with the data of the
    reply: what leaves [onmessage] is what the callback throws.  When the
    callback returns it was called once and is forgotten, and the same
    reply arriving again only logs a warning: nothing is called and no
    event is fired. *)
Theorem client_reply_reaches_its_callback (this : Client.PlayCanvasNetwork)
    (name : string) (data roomId : value) (cb : Client.Callback) :
  Client.reachable this →
  let sent := Client._send name data roomId (Some cb) this in
  ∃ request id,
    Client.log sent = Client.log this ++ [Client.SocketSend request]
    ∧ request = Client.mkOutgoing name data roomId (Some id)
    ∧ ∀ reply,
        Client.in_callbackId reply = Client.out_callbackId request →
        truthy (Client.err_of (Client.in_data reply)) = false →
        (Client.onmessage reply sent).1 = cb (Client.in_data reply)
        ∧ (cb (Client.in_data reply) = None →
           Client.callbacks (Client.onmessage reply sent).2 !! id = None
           ∧ (∃ evs,
                Client.log (Client.onmessage reply sent).2
                = Client.log sent
                  ++ Client.Called id (Client.in_data reply) :: evs
                ∧ Forall announcement evs)
           ∧ Client.onmessage reply (Client.onmessage reply sent).2
             = (None,
                Client.emit (Client.ConsoleWarn id)
                  (Client.onmessage reply sent).2)).
Proof.
  intros Hreach sent.
  destruct (client_pending_below_next this Hreach) as [Hge _].
  exists (Client.mkOutgoing name data roomId
            (Some (Client.lastCallbackId this))), (Client.lastCallbackId this).
  split_and!; [done..|].
  intros reply Hid Herr. cbn [Client.out_callbackId] in Hid.
  assert (Hreg : Client.callbacks sent !! Client.lastCallbackId this = Some cb)
    by (subst sent; cbn; by rewrite lookup_insert_eq).
  destruct (cb (Client.in_data reply)) as [e|] eqn:Hcb.
  - split; [|done]. unfold Client.onmessage, Client.Callback in *.
    rewrite Herr, Hid.
    rewrite (bool_decide_eq_true_2 (0 ≤ Client.lastCallbackId this)) by done.
    rewrite Hreg. cbn iota zeta. by rewrite Hcb.
  - destruct (client_onmessage_reply sent reply _ cb Hid Hge Herr Hreg Hcb)
      as (evs & Hrun & Hann).
    rewrite Hrun. cbn [fst snd Client.callbacks Client.log].
    split; [done|]. intros _. split_and!.
    + apply lookup_delete_eq.
    + by exists evs.
    + apply client_onmessage_unknown; try done.
      cbn [Client.callbacks]. apply lookup_delete_eq.
Qed.

(** X21 on the first request of a client: it carries the id 0, and the
    reply for 0 removes its callback. *)
Lemma client_reply_reaches_its_callback_witness :
  Client.log (Client._send "ping" VNull VNull (Some quiet_callback)
                fresh_client)
  = [Client.SocketSend (Client.mkOutgoing "ping" VNull VNull (Some 0))]
  ∧ Client.callbacks
      (Client.onmessage reply0
         (Client._send "ping" VNull VNull (Some quiet_callback)
            fresh_client)).2
      !! 0 = None.
Proof.
  destruct (client_reply_reaches_its_callback fresh_client "ping" VNull VNull
              quiet_callback (Client.reach_new ∅))
    as (request & id & Hlog & -> & Hreply).
  cbn in Hlog. injection Hlog as <-.
  split; [reflexivity|].
  exact (proj1 (proj2 (Hreply reply0 eq_refl eq_refl) eq_refl)).
Defined.

(** X22.  A pending callback stays pending until its own reply arrives:
    whatever message is received, a registered callback is still registered
    afterwards, unless the message has no error, carries the id of that
    callback, and the callback returned.  In particular an error reply
    never calls and never removes the callback it answers. *)
Theorem client_callback_waits_for_its_reply (this : Client.PlayCanvasNetwork)
    (msg : Client.Incoming) (id : Z) (cb : Client.Callback) :
  Client.callbacks this !! id = Some cb →
  Client.callbacks (Client.onmessage msg this).2 !! id = Some cb
  ∨ (truthy (Client.err_of (Client.in_data msg)) = false
     ∧ Client.in_callbackId msg = Some id
     ∧ cb (Client.in_data msg) = None).
Proof.
  intros Hcb. unfold Client.onmessage, Client.Callback in *.
  destruct (truthy (Client.err_of (Client.in_data msg))) eqn:Herr;
    [by left|].
  assert (Hfire : ∀ s, Client.callbacks (Client.fire_events msg s)
                       = Client.callbacks s).
  { intros s. by destruct (client_fire_events_run msg s) as (evs & -> & _). }
  destruct (Client.in_callbackId msg) as [k|] eqn:Hid;
    [|left; cbn [snd]; by rewrite Hfire].
  case_bool_decide; [|left; cbn [snd]; by rewrite Hfire].
  destruct (decide (k = id)) as [->|Hne].
  - rewrite Hcb. cbn iota zeta.
    destruct (cb (Client.in_data msg)) eqn:Hret; [left; exact Hcb|by right].
  - left. case_match; [|exact Hcb].
    case_match; [exact Hcb|].
    cbn [snd]. rewrite Hfire. cbn [Client.callbacks Client.emit].
    by rewrite lookup_delete_ne.
Qed.

(** X22 on an error reply for the pending callback 0. *)
Lemma client_callback_waits_for_its_reply_witness :
  let this := Client._send "ping" VNull VNull (Some quiet_callback)
                fresh_client in
  let failure :=
    Client.mkIncoming "ping" (VObj [("err", VStr "no")]) VUndefined (Some 0) in
  Client.callbacks (Client.onmessage failure this).2 !! 0
  = Some quiet_callback.
Proof.
  cbn zeta.
  destruct (client_callback_waits_for_its_reply
              (Client._send "ping" VNull VNull (Some quiet_callback)
                 fresh_client)
              (Client.mkIncoming "ping" (VObj [("err", VStr "no")])
                 VUndefined (Some 0))
              0 quiet_callback eq_refl) as [H|[H _]].
  - exact H.
  - discriminate H.
Defined.

(** X23.  The client and the server name the correlation field differently
    ([callbackId], [id]), so they never correlate: a response envelope of
    the server, received by the client, calls no callback and removes none;
    and for a request of the client, received by the server, the reply
    callback sends nothing when the handler succeeds. *)
Theorem client_and_server_never_correlate :
  (∀ env this,
     ∃ evs,
       (Client.onmessage (envelope_received env) this).2
       = Client.mkClient (Client.lastCallbackId this) (Client.callbacks this)
           (Client.rooms this) (Client.log this ++ evs)
       ∧ ∀ id data, Client.Called id data ∉ evs)
  ∧ (∀ request data w,
       callback (request_received request) None data w = (Val tt, w)).
Proof.
  split.
  - intros env this. unfold Client.onmessage, envelope_received.
    cbn [Client.in_data Client.in_callbackId].
    destruct (truthy (Client.err_of (env_data env))).
    + eexists [_]. split; [reflexivity|].
      intros id data Hin. apply list_elem_of_singleton in Hin. discriminate.
    + cbn [snd].
      match goal with |- context [Client.fire_events ?m this] =>
        destruct (client_fire_events_run m this) as (evs & -> & Hann) end.
      exists evs. split; [done|].
      intros id data Hin. rewrite Forall_forall in Hann.
      exact (Hann _ Hin).
  - intros request data w. by apply callback_silent.
Qed.

(** ** The network entities of a room *)

Lemma network_entities_foldl_destroy (ls : list (Z * Z))
    (this : NetworkEntities.NetworkEntities) :
  let s := foldl (λ s l, NetworkEntities.destroy_listener l.2 s) this ls in
  NetworkEntities.ids s = NetworkEntities.ids this
  ∧ NetworkEntities.once_destroy s = NetworkEntities.once_destroy this
  ∧ NetworkEntities.script_ids s = NetworkEntities.script_ids this
  ∧ NetworkEntities.log s
    = NetworkEntities.log this ++ (NetworkEntities.SendDelete <$> ls.*2)
  ∧ ∀ k, NetworkEntities.index s !! k
         = if bool_decide (k ∈ ls.*2) then None
           else NetworkEntities.index this !! k.
Proof.
  revert this. induction ls as [|[key id] ls IH]; intros this; cbv zeta.
  - cbn. rewrite app_nil_r. split_and!; try done.
  - cbn [foldl]. destruct (IH (NetworkEntities.destroy_listener id this))
      as (Hids & Hon & Hsc & Hlog & Hidx).
    cbv zeta in *. cbn [snd] in *.
    rewrite Hids, Hon, Hsc, Hlog. split_and!; try done.
    + cbn. by rewrite <- app_assoc.
    + intros k. rewrite Hidx. cbn [fmap list_fmap snd].
      destruct (decide (k = id)) as [->|Hne].
      * rewrite (bool_decide_eq_true_2 (id ∈ id :: ls.*2))
          by apply list_elem_of_here.
        case_bool_decide; [done|]. cbn. apply lookup_delete_eq.
      * cbn. rewrite lookup_delete_ne by done.
        apply (f_equal (λ b : bool,
                 if b then None else NetworkEntities.index this !! k)).
        apply bool_decide_ext. rewrite elem_of_cons.
        split; [by right|]. by intros [?|?].
Qed.

(** Every id in use is below the next one. *)
Lemma network_entities_ids_below_next this :
  NetworkEntities.reachable this →
  0 ≤ NetworkEntities.ids this
  ∧ (∀ k, is_Some (NetworkEntities.index this !! k) →
          0 ≤ k < NetworkEntities.ids this)
  ∧ (∀ l, l ∈ NetworkEntities.once_destroy this →
          0 ≤ l.2 < NetworkEntities.ids this).
Proof.
  induction 1 as [|this script _ (Hge & Hidx & Hon)
                 |this script _ (Hge & Hidx & Hon)
                 |this id _ (Hge & Hidx & Hon)].
  - cbn. split_and!; [done| |].
    + intros k [e He]. by rewrite lookup_empty in He.
    + intros l Hl. by apply elem_of_nil in Hl.
  - cbn. split_and!; [lia| |].
    + intros k [e He]. apply lookup_insert_Some in He as [[<- _]|[_ He]].
      * lia.
      * assert (0 ≤ k < NetworkEntities.ids this) by eauto. lia.
    + intros l [Hl|Hl]%elem_of_app.
      * assert (0 ≤ l.2 < NetworkEntities.ids this) by eauto. lia.
      * apply list_elem_of_singleton in Hl as ->. cbn. lia.
  - unfold NetworkEntities.fire_destroy.
    match goal with |- context [foldl _ ?s ?ls] =>
      destruct (network_entities_foldl_destroy ls s)
        as (Hids & Hon' & _ & _ & Hidx') end.
    cbn zeta in *. rewrite Hids, Hon'. cbn. split_and!; [done| |].
    + intros k [e He]. rewrite Hidx' in He. case_bool_decide; [done|].
      cbn in He. eauto.
    + intros l Hl. apply list_elem_of_filter in Hl as [_ Hl]. eauto.
  - cbn. split_and!; [done| |done].
    intros k [e He]. apply lookup_delete_Some in He as [_ He]. eauto.
Qed.

(** X24.  [create] gives every script an id of its own: in every state the
    registry can reach, the id it takes is not in use, so no entity is
    replaced; the ids count up from 0; afterwards the entity of the script
    is found under that id, the creation was announced to the players, and
    the entities under other ids are as before. *)
Theorem network_entity_ids_are_fresh (this : NetworkEntities.NetworkEntities)
    (script : NetworkEntities.Script) :
  NetworkEntities.reachable this →
  let id := NetworkEntities.ids this in
  let this' := NetworkEntities.create script this in
  0 ≤ id
  ∧ NetworkEntities.get id this = None
  ∧ NetworkEntities.get id this' = Some (NetworkEntities.script_entity script)
  ∧ NetworkEntities.script_ids this' !! NetworkEntities.script_key script
    = Some id
  ∧ NetworkEntities.ids this' = id + 1
  ∧ NetworkEntities.log this'
    = NetworkEntities.log this
      ++ [NetworkEntities.SendCreate (NetworkEntities.script_entity script)]
  ∧ ∀ k, k ≠ id → NetworkEntities.get k this' = NetworkEntities.get k this.
Proof.
  intros Hreach id this'. subst id this'.
  destruct (network_entities_ids_below_next this Hreach) as (Hge & Hidx & _).
  unfold NetworkEntities.get. cbn. rewrite !lookup_insert_eq.
  split_and!; try done.
  - destruct (NetworkEntities.index this !! NetworkEntities.ids this) eqn:He;
      [|done].
    assert (0 ≤ NetworkEntities.ids this < NetworkEntities.ids this)
      by eauto. lia.
  - intros k Hk. by rewrite lookup_insert_ne.
Qed.

(** X24 on the first script of a registry: it gets the id 0. *)
Lemma network_entity_ids_are_fresh_witness :
  NetworkEntities.get 0 (NetworkEntities.create script1 NetworkEntities.new)
  = Some (NetworkEntities.mkEntity 11).
Proof.
  exact (proj1 (proj2 (proj2 (network_entity_ids_are_fresh NetworkEntities.new
                                script1 NetworkEntities.reach_new)))).
Defined.

Lemma filter_all {A} (P : A → Prop) `{!∀ x, Decision (P x)} (l : list A) :
  (∀ x, x ∈ l → P x) → filter P l = l.
Proof.
  induction l as [|x l IH]; intros Hall; [done|].
  rewrite filter_cons_True by (apply Hall, list_elem_of_here).
  f_equal. apply IH. intros y Hy. by apply Hall, list_elem_of_further.
Qed.

Lemma filter_none {A} (P : A → Prop) `{!∀ x, Decision (P x)} (l : list A) :
  (∀ x, x ∈ l → ¬ P x) → filter P l = [].
Proof.
  induction l as [|x l IH]; intros Hnone; [done|].
  rewrite filter_cons_False by (apply Hnone, list_elem_of_here).
  apply IH. intros y Hy. by apply Hnone, list_elem_of_further.
Qed.

(** The destroy of a script that has one listener, the last attached. *)
Lemma network_entities_destroy_created (this : NetworkEntities.NetworkEntities)
    (script : NetworkEntities.Script) :
  (∀ l, l ∈ NetworkEntities.once_destroy this →
        l.1 ≠ NetworkEntities.script_key script) →
  NetworkEntities.fire_destroy script (NetworkEntities.create script this)
  = NetworkEntities.mkNetworkEntities (NetworkEntities.ids this + 1)
      (base.delete (NetworkEntities.ids this)
         (<[NetworkEntities.ids this := NetworkEntities.script_entity script]>
            (NetworkEntities.index this)))
      (<[NetworkEntities.script_key script := NetworkEntities.ids this]>
         (NetworkEntities.script_ids this))
      (NetworkEntities.once_destroy this)
      (NetworkEntities.log this
       ++ [NetworkEntities.SendCreate (NetworkEntities.script_entity script);
           NetworkEntities.SendDelete (NetworkEntities.ids this)]).
Proof.
  intros Hnew. unfold NetworkEntities.fire_destroy, NetworkEntities.create.
  cbn [NetworkEntities.set NetworkEntities.ids NetworkEntities.index
       NetworkEntities.script_ids NetworkEntities.once_destroy
       NetworkEntities.log].
  rewrite !filter_app.
  rewrite (filter_none (λ l : Z * Z, l.1 = NetworkEntities.script_key script)
             (NetworkEntities.once_destroy this)) by done.
  rewrite (filter_all (λ l : Z * Z, l.1 ≠ NetworkEntities.script_key script)
             (NetworkEntities.once_destroy this)) by done.
  rewrite (filter_cons_True
             (λ l : Z * Z, l.1 = NetworkEntities.script_key script)) by done.
  rewrite (filter_cons_False
             (λ l : Z * Z, l.1 ≠ NetworkEntities.script_key script))
    by (intros H; by apply H).
  rewrite !filter_nil, app_nil_r. cbn.
  unfold NetworkEntities.destroy_listener. cbn. by rewrite <- app_assoc.
Qed.

(** X25.  The destroy of a script takes its entity out, announces it once,
    and does not give the id back: after a script is created and then
    destroyed, [get] finds nothing under its id, one deletion with that id
    was sent to the players after the creation, the next id is still the
    one after it, the entities under other ids are as before, and a second
    'destroy' of the script does nothing. *)
Theorem network_entity_destroy_announces_once
    (this : NetworkEntities.NetworkEntities)
    (script : NetworkEntities.Script) :
  (∀ l, l ∈ NetworkEntities.once_destroy this →
        l.1 ≠ NetworkEntities.script_key script) →
  let id := NetworkEntities.ids this in
  let gone :=
    NetworkEntities.fire_destroy script
      (NetworkEntities.create script this) in
  NetworkEntities.get id gone = None
  ∧ NetworkEntities.log gone
    = NetworkEntities.log this
      ++ [NetworkEntities.SendCreate (NetworkEntities.script_entity script);
          NetworkEntities.SendDelete id]
  ∧ NetworkEntities.ids gone = id + 1
  ∧ (∀ k, k ≠ id →
          NetworkEntities.get k gone = NetworkEntities.get k this)
  ∧ NetworkEntities.fire_destroy script gone = gone.
Proof.
  intros Hnew id gone. subst id gone.
  rewrite (network_entities_destroy_created this script Hnew).
  unfold NetworkEntities.get. cbn [NetworkEntities.index NetworkEntities.log
    NetworkEntities.ids].
  split_and!; try done.
  - apply lookup_delete_eq.
  - intros k Hk. rewrite lookup_delete_ne by done.
    by rewrite lookup_insert_ne.
  - unfold NetworkEntities.fire_destroy.
    cbn [NetworkEntities.ids NetworkEntities.index NetworkEntities.script_ids
         NetworkEntities.once_destroy NetworkEntities.log].
    rewrite (filter_none
               (λ l : Z * Z, l.1 = NetworkEntities.script_key script)
               (NetworkEntities.once_destroy this)) by done.
    by rewrite (filter_all
                  (λ l : Z * Z, l.1 ≠ NetworkEntities.script_key script)
                  (NetworkEntities.once_destroy this)) by done.
Qed.

(** X25 on the first script of a registry. *)
Lemma network_entity_destroy_announces_once_witness :
  NetworkEntities.get 0
    (NetworkEntities.fire_destroy script1
       (NetworkEntities.create script1 NetworkEntities.new))
  = None.
Proof.
  assert (Hnew : ∀ l : Z * Z,
            l ∈ NetworkEntities.once_destroy NetworkEntities.new →
            l.1 ≠ NetworkEntities.script_key script1)
    by (intros l Hl; by apply elem_of_nil in Hl).
  exact (proj1 (network_entity_destroy_announces_once NetworkEntities.new
                  script1 Hnew)).
Defined.

(** X26.  [delete(id)] takes an entity out without telling the players, and
    it leaves the listener of the script in place: when the script is
    destroyed later, the deletion is still announced, for an id that is no
    longer there. *)
Theorem network_entity_delete_is_silent
    (this : NetworkEntities.NetworkEntities)
    (script : NetworkEntities.Script) :
  (∀ l, l ∈ NetworkEntities.once_destroy this →
        l.1 ≠ NetworkEntities.script_key script) →
  let id := NetworkEntities.ids this in
  let created := NetworkEntities.create script this in
  let deleted := NetworkEntities.delete id created in
  let destroyed := NetworkEntities.fire_destroy script deleted in
  NetworkEntities.get id deleted = None
  ∧ NetworkEntities.log deleted = NetworkEntities.log created
  ∧ NetworkEntities.log destroyed
    = NetworkEntities.log created ++ [NetworkEntities.SendDelete id].
Proof.
  intros Hnew id created deleted destroyed.
  subst id created deleted destroyed.
  unfold NetworkEntities.get, NetworkEntities.delete.
  cbn [NetworkEntities.create NetworkEntities.set NetworkEntities.ids
       NetworkEntities.index NetworkEntities.script_ids
       NetworkEntities.once_destroy NetworkEntities.log].
  split_and!; [apply lookup_delete_eq|done|].
  unfold NetworkEntities.fire_destroy.
  cbn [NetworkEntities.ids NetworkEntities.index NetworkEntities.script_ids
       NetworkEntities.once_destroy NetworkEntities.log].
  rewrite !filter_app.
  rewrite (filter_none (λ l : Z * Z, l.1 = NetworkEntities.script_key script)
             (NetworkEntities.once_destroy this)) by done.
  rewrite (filter_cons_True
             (λ l : Z * Z, l.1 = NetworkEntities.script_key script)) by done.
  rewrite filter_nil. by cbn.
Qed.

(** X26 on the first script of a registry. *)
Lemma network_entity_delete_is_silent_witness :
  NetworkEntities.log
    (NetworkEntities.fire_destroy script1
       (NetworkEntities.delete 0
          (NetworkEntities.create script1 NetworkEntities.new)))
  = [NetworkEntities.SendCreate (NetworkEntities.mkEntity 11);
     NetworkEntities.SendDelete 0].
Proof.
  assert (Hnew : ∀ l : Z * Z,
            l ∈ NetworkEntities.once_destroy NetworkEntities.new →
            l.1 ≠ NetworkEntities.script_key script1)
    by (intros l Hl; by apply elem_of_nil in Hl).
  exact (proj2 (proj2 (network_entity_delete_is_silent NetworkEntities.new
                         script1 Hnew))).
Defined.
